(** * RentTracker: the payment reconciliation core

    A shallow embedding of [src/core] of the RentTracker repository
    (expected-date calculation, status determination, the payment matcher
    and the report summary), of the date utilities and of the payment
    processing use case, followed by the properties of the reconciliation
    specification that are stated about it and by further properties of
    the code.

    Modelling conventions.
    - [Decimal] amounts are exact rationals ([Q]); two amounts are the same
      dictionary key when they are numerically equal ([Qeq]), as for
      Python's [Decimal] hashing and equality.  The summary's [float]
      fields hold the exact rational value: binary rounding is not modelled.
    - A [datetime.date] is a record of year, month and day.  Dates are
      ordered, subtracted and shifted by a [timedelta] through their
      proleptic Gregorian ordinal ([toordinal]); the ordinal is an unbounded
      integer, so the year limits of [datetime] (1 to 9999) are not part of
      the model: [shifted_date_in_range] shows that shifts of up to a year
      from a date of the years 2 to 9998 stay within them.
    - A raised exception is the [Raise] case of [result].  A [while] loop
      is a function with fuel that returns [None] when the fuel is used up.
    - A transaction object is a pair of its address (what [id()] returns)
      and its immutable field values. *)

From Stdlib Require Import ZArith QArith Qabs String Ascii List Lia DecimalString.
From stdpp Require Import gmap strings.

Open Scope Z_scope.

(** ** Exceptions *)

Inductive exn : Type :=
| ValueError (msg : string).

Inductive result (A : Type) : Type :=
| Ok (a : A)
| Raise (e : exn).

Arguments Ok {A} a.
Arguments Raise {A} e.

#[global] Instance result_ret : MRet result := fun A a => Ok a.

#[global] Instance result_bind : MBind result := fun A B k r =>
  match r with
  | Ok a => k a
  | Raise e => Raise e
  end.

(** ** Dates ([datetime.date], [calendar.monthrange]) *)

Module PyDate.

Record date : Type := mkdate { year : Z; month : Z; day : Z }.

(** [calendar.isleap] *)
Definition isleap (y : Z) : bool :=
  (y mod 4 =? 0) && (negb (y mod 100 =? 0) || (y mod 400 =? 0)).

(** [calendar.mdays] *)
Definition mdays (m : Z) : Z :=
  match m with
  | 1 => 31 | 2 => 28 | 3 => 31 | 4 => 30 | 5 => 31 | 6 => 30
  | 7 => 31 | 8 => 31 | 9 => 30 | 10 => 31 | 11 => 30 | 12 => 31
  | _ => 0
  end.

(** [calendar.monthrange(year, month)[1]]: the number of days of a month *)
Definition monthrange_days (y m : Z) : Z :=
  mdays m + (if (m =? 2) && isleap y then 1 else 0).

Definition valid_date (d : date) : Prop :=
  1 <= month d <= 12 /\ 1 <= day d <= monthrange_days (year d) (month d).

Definition valid_dateb (d : date) : bool :=
  (1 <=? month d) && (month d <=? 12) && (1 <=? day d)
  && (day d <=? monthrange_days (year d) (month d)).

(** The constructor [date(year, month, day)], which raises [ValueError]
    on a month or a day that does not exist. *)
Definition date_new (y m d : Z) : result date :=
  if negb ((1 <=? m) && (m <=? 12)) then
    Raise (ValueError "month must be in 1..12")
  else if negb ((1 <=? d) && (d <=? monthrange_days y m)) then
    Raise (ValueError "day is out of range for month")
  else Ok (mkdate y m d).

Definition days_before_year (y : Z) : Z :=
  let p := y - 1 in p * 365 + p / 4 - p / 100 + p / 400.

Definition days_before_month (y m : Z) : Z :=
  match m with
  | 1 => 0 | 2 => 31 | 3 => 59 | 4 => 90 | 5 => 120 | 6 => 151
  | 7 => 181 | 8 => 212 | 9 => 243 | 10 => 273 | 11 => 304 | 12 => 334
  | _ => 0
  end + (if (2 <? m) && isleap y then 1 else 0).

(** [date.toordinal()] *)
Definition toordinal (d : date) : Z :=
  days_before_year (year d) + days_before_month (year d) (month d) + day d.

(** [(a - b).days] *)
Definition days_between (a b : date) : Z := toordinal a - toordinal b.

(** A date shifted by [timedelta(days=n)], kept as its ordinal. *)
Definition plus_days (d : date) (n : Z) : Z := toordinal d + n.
Definition minus_days (d : date) (n : Z) : Z := toordinal d - n.

(** Python orders dates by (year, month, day). *)
Definition lex_lt (a b : date) : Prop :=
  year a < year b
  \/ (year a = year b /\ (month a < month b
                          \/ (month a = month b /\ day a < day b))).

(** [date.min.toordinal()] and [date.max.toordinal()] *)
Definition min_ordinal : Z := 1.
Definition max_ordinal : Z := 3652059.

(** The comparisons of the model, on ordinals. *)
Definition ltb (a b : date) : bool := toordinal a <? toordinal b.
Definition leb (a b : date) : bool := toordinal a <=? toordinal b.

(** [date.weekday()], of a date and of a shifted date: Monday is 0 *)
Definition weekday_of_ordinal (o : Z) : Z := (o + 6) mod 7.
Definition weekday (d : date) : Z := weekday_of_ordinal (toordinal d).

(** [str(n).zfill(width)] for a natural number *)
Definition zfill (width : nat) (n : Z) : string :=
  let digits := NilEmpty.string_of_uint (Nat.to_uint (Z.to_nat n)) in
  String.concat "" (repeat "0"%string (width - String.length digits))
  +:+ digits.

(** [str(d)], that is [d.isoformat()]: YYYY-MM-DD *)
Definition isoformat (d : date) : string :=
  zfill 4 (year d) +:+ "-" +:+ zfill 2 (month d) +:+ "-" +:+ zfill 2 (day d).

(** [calendar.monthrange(year, month)[1]] with the check of the month
    ([IllegalMonthError] is a [ValueError]; its message is abridged). *)
Definition monthrange_checked (y m : Z) : result Z :=
  if (1 <=? m) && (m <=? 12) then Ok (monthrange_days y m)
  else Raise (ValueError "bad month number; must be 1-12").

End PyDate.

Import PyDate.

(** ** Domain models *)

(** [models/payment.py] *)
Inductive PaymentStatus : Type :=
| RECEIVED | OVERDUE | PENDING | NOT_DUE | UNCLEAR.

Definition PaymentStatus_eqb (a b : PaymentStatus) : bool :=
  match a, b with
  | RECEIVED, RECEIVED | OVERDUE, OVERDUE | PENDING, PENDING
  | NOT_DUE, NOT_DUE | UNCLEAR, UNCLEAR => true
  | _, _ => false
  end.

(** [models/garage.py] *)
Module Garage.

Record t : Type := mk {
  id : string;
  monthly_rent : Q;
  start_date : date;
  payment_day : Z
}.

(** [Garage.__post_init__] *)
Definition post_init (g : t) : result t :=
  if String.eqb (id g) "" then Raise (ValueError "Garage ID cannot be empty")
  else if Qle_bool (monthly_rent g) 0 then
    Raise (ValueError "Monthly rent must be positive")
  else if negb ((1 <=? payment_day g) && (payment_day g <=? 31)) then
    Raise (ValueError "Payment day must be between 1 and 31")
  else Ok g.

(** The garages that exist: those the constructor accepts. *)
Definition valid (g : t) : Prop := post_init g = Ok g.

End Garage.

(** [models/transaction.py] *)
Module Transaction.

Record t : Type := mk {
  date : PyDate.date;
  amount : Q;
  category : string;
  source : string;
  description : option string
}.

(** [Transaction.__post_init__] *)
Definition post_init (x : t) : result t :=
  if Qle_bool (amount x) 0 then
    Raise (ValueError "Transaction amount must be positive")
  else if String.eqb (category x) "" then
    Raise (ValueError "Transaction category cannot be empty")
  else Ok x.

(** [Transaction.matches_amount], with its default tolerance
    [Decimal('0.01')] *)
Definition matches_amount (x : t) (target_amount : Q) : bool :=
  Qle_bool (Qabs (amount x - target_amount)) (1 # 100).

(** [Transaction.is_incoming] *)
Definition is_incoming (x : t) : bool := negb (Qle_bool (amount x) 0).

(** A transaction object: its address and its (frozen) fields. *)
Record obj : Type := mkobj { addr : nat; val : t }.

End Transaction.

(** [models/payment.py] *)
Module Payment.

Record t : Type := mk {
  garage_id : string;
  amount : Q;
  expected_date : date;
  actual_date : option date;
  status : PaymentStatus;
  days_overdue : Z;
  notes : string
}.

(** [Payment.__post_init__] *)
Definition post_init (p : t) : result t :=
  if String.eqb (garage_id p) "" then
    Raise (ValueError "Garage ID cannot be empty")
  else if Qle_bool (amount p) 0 then
    Raise (ValueError "Payment amount must be positive")
  else Ok p.

(** [Payment(...)]: the dataclass constructor followed by its validation. *)
Definition new (gid : string) (amt : Q) (exp : date) (act : option date)
    (st : PaymentStatus) (days : Z) (nt : string) : result t :=
  post_init (mk gid amt exp act st days nt).

(** [Payment.is_paid] and [Payment.is_overdue] *)
Definition is_paid (p : t) : bool := PaymentStatus_eqb (status p) RECEIVED.
Definition is_overdue (p : t) : bool := PaymentStatus_eqb (status p) OVERDUE.

End Payment.

(** ** [services/status_determiner.py] *)

Module StatusDeterminer.

Section WithGrace.
Variable grace_period_days : Z.

Definition determine_status (expected_date analysis_date : date)
    (has_payment : bool) (actual_payment_date : option date)
    (has_multiple_payments : bool) : PaymentStatus * Z :=
  if has_multiple_payments then (UNCLEAR, 0)
  else if has_payment then
    match actual_payment_date with
    | Some actual =>
        let earliest_acceptable := minus_days expected_date 7 in
        let latest_acceptable := plus_days expected_date grace_period_days in
        if (earliest_acceptable <=? toordinal actual)
           && (toordinal actual <=? latest_acceptable)
        then (RECEIVED, days_between actual expected_date)
        else (UNCLEAR, 0)
    | None => (RECEIVED, 0)
    end
  else
    let grace_end := plus_days expected_date grace_period_days in
    if ltb analysis_date expected_date then (NOT_DUE, 0)
    else if leb expected_date analysis_date
            && (toordinal analysis_date <=? grace_end)
    then (PENDING, days_between analysis_date expected_date)
    else (OVERDUE, days_between analysis_date expected_date).

(** [is_payment_timely] *)
Definition is_payment_timely (expected_date actual_date : date) (early_days : Z)
    : bool :=
  let earliest_acceptable := minus_days expected_date early_days in
  let latest_acceptable := plus_days expected_date grace_period_days in
  (earliest_acceptable <=? toordinal actual_date)
  && (toordinal actual_date <=? latest_acceptable).

End WithGrace.

(** [calculate_payment_delay] *)
Definition calculate_payment_delay (expected_date actual_date : date) : Z :=
  days_between actual_date expected_date.

End StatusDeterminer.

(** ** [services/date_calculator.py] *)

Module DateCalculator.

Definition calculate_expected_date (garage : Garage.t) (target_month : date)
    : result date :=
  let target_year := year target_month in
  let target_month_num := month target_month in
  let payment_day := Garage.payment_day garage in
  let days_in_month := monthrange_days target_year target_month_num in
  if payment_day <=? days_in_month then
    date_new target_year target_month_num payment_day
  else
    date_new target_year target_month_num days_in_month.

Section WithToday.
(** [date.today()] *)
Variable today : date.

(** [get_next_payment_date] *)
Definition get_next_payment_date (garage : Garage.t) (from_date : option date)
    : result date :=
  let from_date := default today from_date in
  current_month ← date_new (year from_date) (month from_date) 1;
  expected_date ← calculate_expected_date garage current_month;
  if ltb expected_date from_date then
    next_month ←
      (if month current_month =? 12 then date_new (year current_month + 1) 1 1
       else date_new (year current_month) (month current_month + 1) 1);
    calculate_expected_date garage next_month
  else mret expected_date.

End WithToday.

(** [calculate_payment_day_from_start_date] *)
Definition calculate_payment_day_from_start_date (start_date : date) : Z :=
  day start_date.

(** [is_payment_overdue] *)
Definition is_payment_overdue (expected_date current_date : date)
    (grace_period_days : Z) : bool :=
  let grace_end := plus_days expected_date grace_period_days in
  grace_end <? toordinal current_date.

(** [calculate_days_overdue] *)
Definition calculate_days_overdue (expected_date current_date : date)
    (grace_period_days : Z) : Z :=
  let grace_end := plus_days expected_date grace_period_days in
  if grace_end <? toordinal current_date then toordinal current_date - grace_end
  else 0.

End DateCalculator.

(** ** [infrastructure/localization/i18n.py] *)

Module I18n.

(** [name + c] *)
Fixpoint snoc (name : string) (c : ascii) : string :=
  match name with
  | EmptyString => String c EmptyString
  | String a r => String a (snoc r c)
  end.

(** [str.format] with keyword arguments, for templates whose replacement
    fields are plain keyword names (as in all the built-in templates of the
    matcher), with the doubled-brace escapes; [field] is the name of the
    replacement field being read, if any.  [None] stands for the [KeyError]
    of an unknown field and the [ValueError] of an unbalanced brace.
    Positional fields, attribute and index lookups, conversions and format
    specifications are outside the model. *)
Fixpoint format_aux (kwargs : list (string * string)) (field : option string)
    (s : string) : option string :=
  match s with
  | EmptyString =>
      match field with
      | None => Some EmptyString
      | Some _ => None
      end
  | String c r =>
      match field with
      | None =>
          if Ascii.eqb c "{" then
            match r with
            | String "{" r' => String "{" <$> format_aux kwargs None r'
            | _ => format_aux kwargs (Some EmptyString) r
            end
          else if Ascii.eqb c "}" then
            match r with
            | String "}" r' => String "}" <$> format_aux kwargs None r'
            | _ => None
            end
          else String c <$> format_aux kwargs None r
      | Some name =>
          if Ascii.eqb c "}" then
            match List.find (fun kv => String.eqb (fst kv) name) kwargs with
            | Some kv => String.append (snd kv) <$> format_aux kwargs None r
            | None => None
            end
          else format_aux kwargs (Some (snoc name c)) r
      end
  end.

Definition format (message : string) (kwargs : list (string * string))
    : option string :=
  format_aux kwargs None message.

Section WithMessages.
(** [self.messages], loaded from a message file of the language or, when
    there is none, [_get_default_messages()]. *)
Variable messages : gmap string string.

(** [LocalizationManager.get(key, default, **kwargs)] *)
Definition get (key : string) (default : string)
    (kwargs : list (string * string)) : string :=
  let message :=
    match messages !! key with
    | Some m => m
    | None => if String.eqb default "" then key else default
    end in
  match kwargs with
  | [] => message
  | _ =>
      match format message kwargs with
      | Some formatted => formatted
      | None => message
      end
  end.

End WithMessages.

(** [_get_default_messages()] *)
Definition default_messages : gmap string string :=
  list_to_map [
    ("status.received", "Received");
    ("status.overdue", "Overdue");
    ("status.pending", "Pending");
    ("status.not_due", "Not Due");
    ("status.unclear", "Unclear");
    ("report.header.garage", "Garage");
    ("report.header.amount", "Amount (RUB)");
    ("report.header.expected_date", "Expected Date");
    ("report.header.actual_date", "Actual Date");
    ("report.header.status", "Status");
    ("report.header.days_overdue", "Days Overdue");
    ("report.header.notes", "Notes");
    ("report.worksheet.payments", "Payments");
    ("report.worksheet.summary", "Summary");
    ("cli.process.start", "Processing payments...");
    ("cli.process.complete", "Processing completed successfully");
    ("cli.process.failed", "Processing failed");
    ("cli.report.generated", "Report generated: {filename}");
    ("summary.title", "Payment Summary");
    ("summary.total_garages", "Total Garages");
    ("summary.received", "Received");
    ("summary.overdue", "Overdue");
    ("summary.pending", "Pending");
    ("summary.not_due", "Not Due");
    ("summary.unclear", "Unclear");
    ("summary.collection_rate", "Collection Rate");
    ("summary.expected_amount", "Expected Amount");
    ("summary.received_amount", "Received Amount");
    ("summary.notes_header", "Notes");
    ("error.file_not_found", "File not found: {filename}");
    ("error.invalid_format", "Invalid file format: {filename}");
    ("error.duplicate_amounts", "Duplicate amounts found: {amounts}");
    ("error.parsing_failed", "Failed to parse file: {filename}");
    ("error.unsupported_language", "Unsupported language: {language}");
    ("report.generated", "Report generated successfully")
  ]%string.

End I18n.

(** ** [services/payment_matcher.py] *)

Module PaymentMatcher.

(** [min(candidates, key=...)] on a non-empty list: the first element
    whose key is the least. *)
Fixpoint min_by {A : Type} (key : A -> Z) (best : A) (l : list A) : A :=
  match l with
  | [] => best
  | x :: r => if key x <? key best then min_by key x r else min_by key best r
  end.

(** [amount_map[rent].append(garage_id)], creating the entry when the
    rent is not yet a key; the dictionary keeps insertion order. *)
Fixpoint amount_map_add (amount_map : list (Q * list string)) (rent : Q)
    (garage_id : string) : list (Q * list string) :=
  match amount_map with
  | [] => [(rent, [garage_id])]
  | (k, ids) :: rest =>
      if Qeq_bool k rent then (k, ids ++ [garage_id]) :: rest
      else (k, ids) :: amount_map_add rest rent garage_id
  end.

(** [_find_amount_conflicts] *)
Definition _find_amount_conflicts (garages : list Garage.t)
    : list (Q * list string) :=
  let amount_map :=
    fold_left (fun m g => amount_map_add m (Garage.monthly_rent g) (Garage.id g))
              garages [] in
  List.filter (fun kv => (1 <? length (snd kv))%nat) amount_map.

(** [amount_conflicts.get(rent, [])] *)
Fixpoint conflicts_get (amount_conflicts : list (Q * list string)) (rent : Q)
    : list string :=
  match amount_conflicts with
  | [] => []
  | (k, ids) :: rest =>
      if Qeq_bool k rent then ids else conflicts_get rest rent
  end.

(** [", ".join(conflicting_garages)] *)
Definition join_ids (conflicting_garages : list string) : string :=
  String.concat ", " conflicting_garages.

(** [str(len(candidates))] *)
Definition str_of_len {A : Type} (l : list A) : string :=
  NilEmpty.string_of_uint (Nat.to_uint (length l)).

(** The defaults of [PaymentMatcher.__init__] *)
Definition default_search_window_days : Z := 7.
Definition default_grace_period_days : Z := 3.

(** The target month of a run: the first day of the month of the analysis
    date when none is given. *)
Definition resolve_target_month (analysis_date : date)
    (target_month : option date) : result date :=
  match target_month with
  | None => date_new (year analysis_date) (month analysis_date) 1
  | Some m => mret m
  end.

Section WithConfig.
Variables search_window_days grace_period_days : Z.
Variable messages : gmap string string.

(** The candidates of the narrow search: the loop of [_find_best_match]. *)
Definition narrow_candidates (amount : Q) (expected_date : date)
    (transactions : list Transaction.obj) (used_transactions : gset nat)
    (analysis_date : date) : list Transaction.obj :=
  let start_date := minus_days expected_date search_window_days in
  let end_date := plus_days expected_date grace_period_days in
  List.filter
    (fun transaction =>
       bool_decide (Transaction.addr transaction ∉ used_transactions)
       && Transaction.matches_amount (Transaction.val transaction) amount
       && ((start_date <=? toordinal (Transaction.date (Transaction.val transaction)))
           && (toordinal (Transaction.date (Transaction.val transaction)) <=? end_date))
       && leb (Transaction.date (Transaction.val transaction)) analysis_date)
    transactions.

(** [_find_best_match] *)
Definition _find_best_match (amount : Q) (expected_date : date)
    (transactions : list Transaction.obj) (used_transactions : gset nat)
    (conflicting_garages : list string) (analysis_date : date)
    : option Transaction.obj * string :=
  let candidates :=
    narrow_candidates amount expected_date transactions used_transactions
                      analysis_date in
  match candidates with
  | [] => (None, "")
  | [c] =>
      let conflict_info :=
        match conflicting_garages with
        | [] => ""
        | _ => "Amount conflict with garages: " +:+ join_ids conflicting_garages
        end in
      (Some c, conflict_info)
  | c :: rest =>
      let best_transaction :=
        min_by (fun t => Z.abs (days_between (Transaction.date (Transaction.val t))
                                             expected_date)) c rest in
      let conflict_info :=
        I18n.get messages "notes.multiple_matches" "Multiple matches found" []
        +:+ ", "
        +:+ I18n.get messages "notes.closest_match"
                     "selected closest to expected date" [] in
      let conflict_info :=
        match conflicting_garages with
        | [] => conflict_info
        | _ =>
            conflict_info +:+ ". "
            +:+ I18n.get messages "notes.amount_shared"
                         "Amount conflict with garages: {garages}"
                         [("garages", join_ids conflicting_garages)]
        end in
      (Some best_transaction, conflict_info)
  end.

(** The candidates of the wide search: the loop of [_find_fallback_match]. *)
Definition fallback_candidates (amount : Q)
    (transactions : list Transaction.obj) (used_transactions : gset nat)
    (analysis_date : date) : list Transaction.obj :=
  List.filter
    (fun transaction =>
       bool_decide (Transaction.addr transaction ∉ used_transactions)
       && Transaction.matches_amount (Transaction.val transaction) amount
       && leb (Transaction.date (Transaction.val transaction)) analysis_date)
    transactions.

(** [_find_fallback_match] *)
Definition _find_fallback_match (amount : Q)
    (transactions : list Transaction.obj) (used_transactions : gset nat)
    (conflicting_garages : list string) (analysis_date : date)
    : option Transaction.obj * string :=
  let candidates :=
    fallback_candidates amount transactions used_transactions analysis_date in
  match candidates with
  | [] => (None, "")
  | [c] =>
      let conflict_info :=
        match conflicting_garages with
        | [] => I18n.get messages "notes.wide_search" "Wide search match" []
        | _ =>
            I18n.get messages "notes.wide_search_shared"
                     "Wide search match (amount shared with garages: {garages})"
                     [("garages", join_ids conflicting_garages)]
        end in
      (Some c, conflict_info)
  | c :: rest =>
      let best_transaction :=
        min_by (fun t => toordinal (Transaction.date (Transaction.val t))) c rest in
      let conflict_info :=
        I18n.get messages "notes.wide_search_earliest"
                 "Wide search - earliest of {count} matches"
                 [("count", str_of_len candidates)] in
      let conflict_info :=
        match conflicting_garages with
        | [] => conflict_info
        | _ =>
            conflict_info +:+ " ("
            +:+ I18n.get messages "notes.amount_shared"
                         "amount shared with garages: {garages}"
                         [("garages", join_ids conflicting_garages)]
            +:+ ")"
        end in
      (Some best_transaction, conflict_info)
  end.

(** [_create_matched_payment] *)
Definition _create_matched_payment (payment : Payment.t)
    (transaction : Transaction.obj) (conflict_info : string)
    : result Payment.t :=
  let status := RECEIVED in
  let days_overdue :=
    days_between (Transaction.date (Transaction.val transaction))
                 (Payment.expected_date payment) in
  Payment.new (Payment.garage_id payment) (Payment.amount payment)
    (Payment.expected_date payment)
    (Some (Transaction.date (Transaction.val transaction)))
    status days_overdue
    (if String.eqb conflict_info "" then
       I18n.get messages "notes.payment_matched" "Payment matched" []
     else conflict_info).

(** [_create_unmatched_payment] *)
Definition _create_unmatched_payment (payment : Payment.t)
    (analysis_date : date) : result Payment.t :=
  let '(status, days_overdue) :=
    StatusDeterminer.determine_status grace_period_days
      (Payment.expected_date payment) analysis_date false None false in
  Payment.new (Payment.garage_id payment) (Payment.amount payment)
    (Payment.expected_date payment) None status days_overdue
    (I18n.get messages "notes.no_payment" "No matching payment found" []).

(** The transaction an obligation ends with, and its note: the narrow
    search, then the wide one when the narrow search found nothing. *)
Definition select_transaction (amount : Q) (expected_date : date)
    (transactions : list Transaction.obj) (used_transactions : gset nat)
    (conflicting_garages : list string) (analysis_date : date)
    : option Transaction.obj * string :=
  match _find_best_match amount expected_date transactions used_transactions
                         conflicting_garages analysis_date with
  | (None, _) =>
      _find_fallback_match amount transactions used_transactions
                           conflicting_garages analysis_date
  | found => found
  end.

(** One iteration of the loop of [match_payments]: the payment of a
    garage, together with the transaction that was selected for it. *)
Definition match_garage (transactions : list Transaction.obj)
    (analysis_date target_month : date)
    (amount_conflicts : list (Q * list string))
    (used_transactions : gset nat) (garage : Garage.t)
    : result (Payment.t * option Transaction.obj) :=
  expected_date ← DateCalculator.calculate_expected_date garage target_month;
  let '(transaction, conflict_info) :=
    select_transaction (Garage.monthly_rent garage) expected_date transactions
      used_transactions
      (conflicts_get amount_conflicts (Garage.monthly_rent garage))
      analysis_date in
  payment ← Payment.new (Garage.id garage) (Garage.monthly_rent garage)
                        expected_date None NOT_DUE 0 "";
  match transaction with
  | Some t =>
      payment ← _create_matched_payment payment t conflict_info;
      mret (payment, Some t)
  | None =>
      payment ← _create_unmatched_payment payment analysis_date;
      mret (payment, None)
  end.

(** [used_transactions.add(id(transaction))] when one was selected *)
Definition mark_used (used_transactions : gset nat)
    (transaction : option Transaction.obj) : gset nat :=
  match transaction with
  | Some t => {[Transaction.addr t]} ∪ used_transactions
  | None => used_transactions
  end.

(** The loop of [match_payments], from a given set of used transactions;
    it returns every payment with the transaction selected for it, and
    the final set. *)
Fixpoint match_loop (transactions : list Transaction.obj)
    (analysis_date target_month : date)
    (amount_conflicts : list (Q * list string))
    (garages : list Garage.t) (used_transactions : gset nat)
    : result (list (Payment.t * option Transaction.obj) * gset nat) :=
  match garages with
  | [] => mret ([], used_transactions)
  | garage :: rest =>
      '(payment, transaction) ←
        match_garage transactions analysis_date target_month amount_conflicts
                     used_transactions garage;
      '(payments, used) ←
        match_loop transactions analysis_date target_month amount_conflicts
                   rest (mark_used used_transactions transaction);
      mret ((payment, transaction) :: payments, used)
  end.

(** The run of [match_payments] with its selections. *)
Definition match_trace (garages : list Garage.t)
    (transactions : list Transaction.obj) (analysis_date : date)
    (target_month : option date)
    : result (list (Payment.t * option Transaction.obj)) :=
  let amount_conflicts := _find_amount_conflicts garages in
  target_month ← resolve_target_month analysis_date target_month;
  '(payments, _) ←
    match_loop transactions analysis_date target_month amount_conflicts
               garages ∅;
  mret payments.

(** [match_payments] *)
Definition match_payments (garages : list Garage.t)
    (transactions : list Transaction.obj) (analysis_date : date)
    (target_month : option date) : result (list Payment.t) :=
  payments ← match_trace garages transactions analysis_date target_month;
  mret (map fst payments).

End WithConfig.

End PaymentMatcher.

(** ** [models/report.py] *)

Module Report.

(** [sum(...)] over integers and over decimals: from 0, left to right *)
Definition sum_Z (l : list Z) : Z := fold_left Z.add l 0.
Definition sum_Q (l : list Q) : Q := fold_left Qplus l 0%Q.

Record PaymentSummary : Type := mkSummary {
  total_garages : Z;
  received_count : Z;
  overdue_count : Z;
  pending_count : Z;
  not_due_count : Z;
  unclear_count : Z;
  total_expected : Q;
  total_received : Q
}.

(** [PaymentSummary.collection_rate] *)
Definition collection_rate (s : PaymentSummary) : Q :=
  if total_garages s =? 0 then 0%Q
  else ((inject_Z (received_count s) / inject_Z (total_garages s)) * 100)%Q.

(** [sum(1 for p in payments if p.status == st)] *)
Definition count_status (st : PaymentStatus) (payments : list Payment.t) : Z :=
  sum_Z (map (fun _ => 1)
             (List.filter (fun p => PaymentStatus_eqb (Payment.status p) st)
                          payments)).

(** [PaymentReport._calculate_summary] *)
Definition _calculate_summary (payments : list Payment.t) : PaymentSummary :=
  {| total_garages := Z.of_nat (length payments);
     received_count := count_status RECEIVED payments;
     overdue_count := count_status OVERDUE payments;
     pending_count := count_status PENDING payments;
     not_due_count := count_status NOT_DUE payments;
     unclear_count := count_status UNCLEAR payments;
     total_expected := sum_Q (map Payment.amount payments);
     total_received :=
       sum_Q (map Payment.amount
                  (List.filter
                     (fun p => PaymentStatus_eqb (Payment.status p) RECEIVED)
                     payments)) |}.

Record PaymentReport : Type := mkReport {
  generated_at : Z;
  analysis_date : date;
  garage_file : string;
  statement_file : string;
  payments : list Payment.t;
  summary : PaymentSummary;
  notes : list string
}.

(** [PaymentReport.__post_init__] *)
Definition post_init (r : PaymentReport) : result PaymentReport :=
  match payments r with
  | [] => Raise (ValueError "Report must contain at least one payment")
  | _ :: _ =>
      if String.eqb (garage_file r) "" || String.eqb (statement_file r) "" then
        Raise (ValueError "Source files must be specified")
      else Ok r
  end.

(** [PaymentReport(...)]: the dataclass constructor and its validation *)
Definition new (generated_at : Z) (analysis_date : date)
    (garage_file statement_file : string) (payments : list Payment.t)
    (summary : PaymentSummary) (notes : list string) : result PaymentReport :=
  post_init (mkReport generated_at analysis_date garage_file statement_file
                      payments summary notes).

(** [get_overdue_payments] and [get_pending_payments] *)
Definition get_overdue_payments (r : PaymentReport) : list Payment.t :=
  List.filter (fun p => PaymentStatus_eqb (Payment.status p) OVERDUE) (payments r).

Definition get_pending_payments (r : PaymentReport) : list Payment.t :=
  List.filter (fun p => PaymentStatus_eqb (Payment.status p) PENDING) (payments r).

Section WithClock.
(** [date.today()] and [datetime.now()] *)
Variable today : date.
Variable now : Z.

(** [PaymentReport.create] *)
Definition create (garage_file statement_file : string)
    (payments : list Payment.t) (analysis_date : option date)
    (notes : option (list string)) : result PaymentReport :=
  let analysis_date := default today analysis_date in
  let notes := default [] notes in
  let summary := _calculate_summary payments in
  new now analysis_date garage_file statement_file payments summary notes.

End WithClock.

End Report.

(** ** [models/payment_period.py] *)

Module PaymentPeriod.

Record t : Type := mk {
  start_date : date;
  end_date : date;
  source_text : string
}.

(** [PaymentPeriod.__post_init__] *)
Definition post_init (p : t) : result t :=
  if ltb (end_date p) (start_date p) then
    Raise (ValueError ("Start date " +:+ isoformat (start_date p)
                       +:+ " cannot be after end date "
                       +:+ isoformat (end_date p)))
  else Ok p.

(** The periods that exist: those the constructor accepts. *)
Definition valid (p : t) : Prop := post_init p = Ok p.

(** [duration_days] *)
Definition duration_days (p : t) : Z :=
  days_between (end_date p) (start_date p) + 1.

(** [target_month] *)
Definition target_month (p : t) : result date :=
  date_new (year (start_date p)) (month (start_date p)) 1.

(** [contains_date] *)
Definition contains_date (p : t) (check_date : date) : bool :=
  leb (start_date p) check_date && leb check_date (end_date p).

End PaymentPeriod.

(** ** [utils/date_utils.py] *)

Module DateUtils.

(** [get_last_day_of_month] *)
Definition get_last_day_of_month (y m : Z) : result Z := monthrange_checked y m.

(** [adjust_payment_day] *)
Definition adjust_payment_day (payment_day target_year target_month : Z)
    : result Z :=
  last_day ← get_last_day_of_month target_year target_month;
  mret (Z.min payment_day last_day).

(** [calculate_expected_payment_date] *)
Definition calculate_expected_payment_date (base_date target_month : date)
    : result date :=
  let payment_day := day base_date in
  adjusted_day ← adjust_payment_day payment_day (year target_month)
                                    (month target_month);
  date_new (year target_month) (month target_month) adjusted_day.

(** [is_date_in_range]; the defaults of [days_before] and [days_after] are
    7 and 3. *)
Definition is_date_in_range (check_date center_date : date)
    (days_before days_after : Z) : bool :=
  let start_date := minus_days center_date days_before in
  let end_date := plus_days center_date days_after in
  (start_date <=? toordinal check_date) && (toordinal check_date <=? end_date).

(** [days_difference] *)
Definition days_difference (date1 date2 : date) : Z := days_between date2 date1.

(** [is_weekend], of a date and of a shifted date *)
Definition is_weekend_ordinal (o : Z) : bool := 5 <=? weekday_of_ordinal o.
Definition is_weekend (check_date : date) : bool := 5 <=? weekday check_date.

(** The loop of [get_next_business_day]: [fuel] bounds the number of days
    skipped; [None] when it is used up. *)
Fixpoint skip_weekend (fuel : nat) (next_day : Z) : option Z :=
  if is_weekend_ordinal next_day then
    match fuel with
    | O => None
    | S fuel' => skip_weekend fuel' (next_day + 1)
    end
  else Some next_day.

(** [get_next_business_day]; the day it returns is kept as its ordinal. *)
Definition get_next_business_day (fuel : nat) (start_date : date) : option Z :=
  skip_weekend fuel (plus_days start_date 1).

(** The loop of [get_months_between]: [fuel] bounds the number of months
    visited; [None] when it is used up. *)
Fixpoint months_loop (fuel : nat) (current end_month : date)
    : option (result (list date)) :=
  if leb current end_month then
    match fuel with
    | O => None
    | S fuel' =>
        match (if month current =? 12 then date_new (year current + 1) 1 1
               else date_new (year current) (month current + 1) 1) with
        | Ok next =>
            match months_loop fuel' next end_month with
            | Some (Ok months) => Some (Ok (current :: months))
            | other => other
            end
        | Raise e => Some (Raise e)
        end
    end
  else Some (Ok []).

(** [get_months_between] *)
Definition get_months_between (fuel : nat) (start_date end_date : date)
    : option (result (list date)) :=
  match date_new (year start_date) (month start_date) 1 with
  | Ok current =>
      match date_new (year end_date) (month end_date) 1 with
      | Ok end_month => months_loop fuel current end_month
      | Raise e => Some (Raise e)
      end
  | Raise e => Some (Raise e)
  end.

End DateUtils.

(** ** [application/use_cases/process_payments.py] *)

Module ProcessPayments.

(** [PaymentProcessResponse] *)
Record PaymentProcessResponse : Type := mkResponse {
  success : bool;
  report : option Report.PaymentReport;
  errors : list string;
  warnings : list string
}.

(** [has_errors] and [has_warnings] *)
Definition has_errors (r : PaymentProcessResponse) : bool :=
  (0 <? length (errors r))%nat.
Definition has_warnings (r : PaymentProcessResponse) : bool :=
  (0 <? length (warnings r))%nat.

(** [str(e)] *)
Definition str_exn (e : exn) : string :=
  match e with
  | ValueError msg => msg
  end.

Section WithEnvironment.
(** The matcher of the use case: its windows and its messages. *)
Variables search_window_days grace_period_days : Z.
Variable messages : gmap string string.
(** [str] of a [Decimal], which depends on the digits it was written with. *)
Variable str_decimal : Q -> string.
(** [date.today()] and [datetime.now()] *)
Variable today : date.
Variable now : Z.

(** [_validate_data_integrity] *)
Definition _validate_data_integrity (garages : list Garage.t) : list string :=
  let amount_map :=
    fold_left
      (fun m g => PaymentMatcher.amount_map_add m (Garage.monthly_rent g)
                                                (Garage.id g))
      garages [] in
  let warnings :=
    map (fun kv =>
           "Duplicate rental amount " +:+ str_decimal (fst kv) +:+ ": garages "
           +:+ String.concat ", " (snd kv))
        (List.filter (fun kv => (1 <? length (snd kv))%nat) amount_map) in
  let unusual_days :=
    List.filter (fun g => 28 <? Garage.payment_day g) garages in
  match unusual_days with
  | [] => warnings
  | _ =>
      warnings
      ++ ["Garages with payment days > 28: "
          +:+ String.concat ", " (map Garage.id unusual_days)
          +:+ " (may cause issues in short months)"]
  end.

(** The body of the [try] of [execute].  What the parsers return or raise
    for the two files ([_parse_garage_registry], [_parse_bank_statement])
    and the period found in the statement ([_extract_payment_period], which
    raises nothing) are given. *)
Definition execute_steps (garage_file statement_file : string)
    (parsed_garages : result (list Garage.t))
    (parsed_transactions : result (list Transaction.obj))
    (payment_period : option PaymentPeriod.t) (analysis_date : date)
    : result (Report.PaymentReport * list string) :=
  garages ← parsed_garages;
  transactions ← parsed_transactions;
  target_month ←
    match payment_period with
    | Some period => PaymentPeriod.target_month period
    | None => date_new (year analysis_date) (month analysis_date) 1
    end;
  let validation_notes := _validate_data_integrity garages in
  payments ←
    PaymentMatcher.match_payments search_window_days grace_period_days messages
      garages transactions analysis_date (Some target_month);
  report ←
    Report.create today now garage_file statement_file payments
                  (Some analysis_date) (Some validation_notes);
  mret (report, validation_notes).

(** [execute]: any exception becomes a response without report. *)
Definition execute (garage_file statement_file : string)
    (parsed_garages : result (list Garage.t))
    (parsed_transactions : result (list Transaction.obj))
    (payment_period : option PaymentPeriod.t) (analysis_date : date)
    : PaymentProcessResponse :=
  match execute_steps garage_file statement_file parsed_garages
                      parsed_transactions payment_period analysis_date with
  | Ok (report, validation_notes) =>
      mkResponse true (Some report) [] validation_notes
  | Raise e => mkResponse false None [str_exn e] []
  end.

End WithEnvironment.

End ProcessPayments.

(** ** Vocabulary of the properties *)

(** The date and the amount of a transaction object. *)
Abbreviation tx_date t := (Transaction.date (Transaction.val t)).
Abbreviation tx_amount t := (Transaction.amount (Transaction.val t)).

(** The note of a matched payment: the search's note, or "Payment matched". *)
Definition matched_notes (messages : gmap string string) (conflict_info : string)
    : string :=
  if String.eqb conflict_info "" then
    I18n.get messages "notes.payment_matched" "Payment matched" []
  else conflict_info.

(** The payment that [match_garage] builds from the expected date and the
    selection. *)
Definition outcome_of (grace_period_days : Z) (messages : gmap string string)
    (analysis_date : date) (g : Garage.t) (expected : date)
    (selection : option Transaction.obj * string) : Payment.t :=
  match selection with
  | (Some t, info) =>
      Payment.mk (Garage.id g) (Garage.monthly_rent g) expected
        (Some (tx_date t)) RECEIVED (days_between (tx_date t) expected)
        (matched_notes messages info)
  | (None, _) =>
      let st := StatusDeterminer.determine_status grace_period_days expected
                  analysis_date false None false in
      Payment.mk (Garage.id g) (Garage.monthly_rent g) expected None
        (fst st) (snd st)
        (I18n.get messages "notes.no_payment" "No matching payment found" [])
  end.

(** The set of used transactions after the entries of a run. *)
Definition used_by (used : gset nat)
    (log : list (Payment.t * option Transaction.obj)) : gset nat :=
  fold_left PaymentMatcher.mark_used (map snd log) used.

(** [s] occurs in [notes]. *)
Definition contains (notes s : string) : Prop :=
  exists pre post, notes = pre +:+ s +:+ post.

(** [sub] occurs in [s], decided. *)
Fixpoint occurs (sub s : string) : bool :=
  String.prefix sub s
  || match s with
     | EmptyString => false
     | String _ r => occurs sub r
     end.

(** The identifiers of the garages whose rent is [rent], in input order. *)
Definition ids_sharing (rent : Q) (garages : list Garage.t) : list string :=
  map Garage.id
      (List.filter (fun g => Qeq_bool (Garage.monthly_rent g) rent) garages).

(** [amount_map.get(rent)] on the dictionary built by [_find_amount_conflicts] *)
Fixpoint amap_get (amount_map : list (Q * list string)) (rent : Q)
    : option (list string) :=
  match amount_map with
  | [] => None
  | (k, ids) :: rest => if Qeq_bool k rent then Some ids else amap_get rest rent
  end.

(** The keys of a dictionary are pairwise different amounts. *)
Fixpoint keys_distinct (amount_map : list (Q * list string)) : Prop :=
  match amount_map with
  | [] => True
  | (k, _) :: rest => amap_get rest k = None /\ keys_distinct rest
  end.

(** The statement that every outcome of an obligation sharing its amount
    with another one names that other obligation in its notes, matched or
    not (with the default configuration and messages). *)
Definition conflict_note_on_every_outcome : Prop :=
  forall (garages : list Garage.t) (transactions : list Transaction.obj)
         (analysis : date) (target : option date) (payments : list Payment.t),
    PaymentMatcher.match_payments 7 3 I18n.default_messages garages transactions
                                  analysis target = Ok payments ->
    forall i j g g' p,
      i <> j -> garages !! i = Some g -> garages !! j = Some g' ->
      (Garage.monthly_rent g' == Garage.monthly_rent g)%Q ->
      payments !! i = Some p ->
      contains (Payment.notes p) (Garage.id g').

(** A transaction object and garages for the examples. *)
Definition tx (a : nat) (d : date) (amt : Q) : Transaction.obj :=
  Transaction.mkobj a (Transaction.mk d amt "Transfer" "bank_statement" None).

Definition garage_day31 : Garage.t :=
  Garage.mk "7" (3500 # 1) (mkdate 2025 1 31) 31.

(** The note templates that take parameters are the built-in ones: the
    message table does not override them. *)
Definition builtin_templates (messages : gmap string string) : Prop :=
  messages !! "notes.amount_shared" = None
  /\ messages !! "notes.wide_search_shared" = None
  /\ messages !! "notes.wide_search_earliest" = None.

(** Example data: a statement of three transfers of 3500.00, one far before
    the window of January 2025, one after it. *)
Definition garage_g1 : Garage.t := Garage.mk "G1" (3500 # 1) (mkdate 2025 1 1) 15.
Definition garage_g2 : Garage.t := Garage.mk "G2" (3500 # 1) (mkdate 2025 1 1) 16.

Definition statement_wide : list Transaction.obj :=
  [tx 1 (mkdate 2025 1 30) (3500 # 1); tx 2 (mkdate 2024 11 1) (3500 # 1);
   tx 3 (mkdate 2025 2 16) (3500 # 1)].

(** Two statements of two transfers with the same date, amount and category:
    two objects, and one object listed twice. *)
Definition statement_twins : list Transaction.obj :=
  [tx 1 (mkdate 2025 1 15) (3500 # 1); tx 2 (mkdate 2025 1 15) (3500 # 1)].

Definition statement_alias : list Transaction.obj :=
  [tx 1 (mkdate 2025 1 15) (3500 # 1); tx 1 (mkdate 2025 1 15) (3500 # 1)].

(** A payment with a given status, for the examples of the report. *)
Definition payment_of (gid : string) (amt : Q) (st : PaymentStatus) : Payment.t :=
  Payment.mk gid amt (mkdate 2025 1 15) None st 0 "".

(** The addresses of the transactions selected in a run, in order. *)
Definition selected_addrs (log : list (Payment.t * option Transaction.obj))
    : list nat :=
  flat_map (fun entry => match snd entry with
                         | Some t => [Transaction.addr t]
                         | None => []
                         end) log.

(** A template without braces. *)
Fixpoint brace_free (s : string) : bool :=
  match s with
  | EmptyString => true
  | String c r => negb (Ascii.eqb c "{") && negb (Ascii.eqb c "}") && brace_free r
  end.

(** The first day of the month after that of [d]. *)
Definition first_of_next_month (d : date) : date :=
  if month d =? 12 then mkdate (year d + 1) 1 1
  else mkdate (year d) (month d + 1) 1.

(** Example data for the further properties. *)
Definition garage_day20 : Garage.t :=
  Garage.mk "20" (2800 # 1) (mkdate 2024 12 20) 20.

Definition period_january : PaymentPeriod.t :=
  PaymentPeriod.mk (mkdate 2025 1 1) (mkdate 2025 1 31) "01.01.2025 - 31.01.2025".

(** Two payments that differ at most in their notes. *)
Definition same_outcome (p q : Payment.t) : Prop :=
  Payment.garage_id p = Payment.garage_id q
  /\ Payment.amount p = Payment.amount q
  /\ Payment.expected_date p = Payment.expected_date q
  /\ Payment.actual_date p = Payment.actual_date q
  /\ Payment.status p = Payment.status q
  /\ Payment.days_overdue p = Payment.days_overdue q.

(** The month against which [execute] computes the expected dates: that of
    the start of the statement period, or that of the analysis date. *)
Definition execute_target (payment_period : option PaymentPeriod.t)
    (analysis : date) : date :=
  match payment_period with
  | Some period =>
      mkdate (year (PaymentPeriod.start_date period))
             (month (PaymentPeriod.start_date period)) 1
  | None => mkdate (year analysis) (month analysis) 1
  end.

(** Months counted from year 0: the index of the month of a date, and the
    first day of the month of an index. *)
Definition month_index (d : date) : Z := year d * 12 + month d - 1.
Definition month_start (i : Z) : date := mkdate (i / 12) (i mod 12 + 1) 1.

(** * Properties *)

(** ** The calendar *)

Lemma monthrange_days_bounds (y m : Z) :
  1 <= m <= 12 -> 28 <= monthrange_days y m <= 31.
Proof.
  intros Hm. unfold monthrange_days.
  assert (Hc : m = 1 \/ m = 2 \/ m = 3 \/ m = 4 \/ m = 5 \/ m = 6 \/ m = 7
               \/ m = 8 \/ m = 9 \/ m = 10 \/ m = 11 \/ m = 12) by lia.
  destruct (isleap y);
    repeat (destruct Hc as [-> | Hc]; [simpl; lia |]); subst; simpl; lia.
Qed.

Lemma valid_dateb_true (d : date) : valid_dateb d = true -> valid_date d.
Proof.
  unfold valid_dateb, valid_date. intros H.
  repeat (apply andb_prop in H as [H ?]). lia.
Qed.

Lemma garage_valid_inv (g : Garage.t) :
  Garage.valid g ->
  Garage.id g <> "" /\ Qle_bool (Garage.monthly_rent g) 0 = false
  /\ 1 <= Garage.payment_day g <= 31.
Proof.
  unfold Garage.valid, Garage.post_init. intros H.
  destruct (String.eqb (Garage.id g) "") eqn:Hid; [discriminate |].
  destruct (Qle_bool (Garage.monthly_rent g) 0) eqn:Hrent; [discriminate |].
  destruct ((1 <=? Garage.payment_day g) && (Garage.payment_day g <=? 31)) eqn:Hday;
    [| discriminate].
  apply String.eqb_neq in Hid. apply andb_prop in Hday as [H1 H2].
  repeat split; try assumption; lia.
Qed.

Lemma date_new_ok (y m d : Z) :
  1 <= m <= 12 -> 1 <= d <= monthrange_days y m ->
  date_new y m d = Ok (mkdate y m d).
Proof.
  intros Hm Hd. unfold date_new.
  replace ((1 <=? m) && (m <=? 12)) with true by (symmetry; apply andb_true_intro; split; lia).
  replace ((1 <=? d) && (d <=? monthrange_days y m)) with true
    by (symmetry; apply andb_true_intro; split; lia).
  reflexivity.
Qed.

Lemma calculate_expected_date_spec (g : Garage.t) (tm : date) :
  Garage.valid g -> valid_date tm ->
  DateCalculator.calculate_expected_date g tm
  = Ok (mkdate (year tm) (month tm)
               (Z.min (Garage.payment_day g)
                      (monthrange_days (year tm) (month tm)))).
Proof.
  intros Hg [Hm _]. apply garage_valid_inv in Hg as (_ & _ & Hd).
  pose proof (monthrange_days_bounds (year tm) _ Hm) as Hb.
  unfold DateCalculator.calculate_expected_date.
  destruct (Garage.payment_day g <=? monthrange_days (year tm) (month tm)) eqn:E.
  - rewrite Z.min_l by lia. apply date_new_ok; lia.
  - rewrite Z.min_r by lia. apply date_new_ok; lia.
Qed.

(** C5. For a garage (payment day 1..31) and a target month, the expected
    date is [date(year, month, payment_day)] when the payment day is at most
    the last day of the month, and [date(year, month, last_day)] otherwise,
    and no exception is raised; so day 31 gives day 30 in a month of 30 days,
    day 29 gives day 28 in February of a common year and day 29 in February
    of a leap year. *)
Theorem expected_date_clamped (g : Garage.t) (tm : date) :
  Garage.valid g -> valid_date tm ->
  let y := year tm in
  let m := month tm in
  let last := monthrange_days y m in
  (Garage.payment_day g <= last ->
   DateCalculator.calculate_expected_date g tm
   = Ok (mkdate y m (Garage.payment_day g)))
  /\ (last < Garage.payment_day g ->
      DateCalculator.calculate_expected_date g tm = Ok (mkdate y m last))
  /\ (Garage.payment_day g = 31 -> last = 30 ->
      DateCalculator.calculate_expected_date g tm = Ok (mkdate y m 30))
  /\ (Garage.payment_day g = 29 -> m = 2 -> isleap y = false ->
      DateCalculator.calculate_expected_date g tm = Ok (mkdate y 2 28))
  /\ (Garage.payment_day g = 29 -> m = 2 -> isleap y = true ->
      DateCalculator.calculate_expected_date g tm = Ok (mkdate y 2 29)).
Proof.
  intros Hg Htm y m last.
  pose proof (calculate_expected_date_spec g tm Hg Htm) as Hspec.
  fold y m last in Hspec. rewrite Hspec.
  assert (Hfeb : m = 2 -> last = if isleap y then 29 else 28).
  { intros E. unfold last, monthrange_days. rewrite E. simpl.
    destruct (isleap y); reflexivity. }
  repeat split.
  - intros H. rewrite Z.min_l by lia. reflexivity.
  - intros H. rewrite Z.min_r by lia. reflexivity.
  - intros H1 H2. rewrite Z.min_r by lia. rewrite H2. reflexivity.
  - intros H1 H2 H3. specialize (Hfeb H2). rewrite H3 in Hfeb.
    rewrite Z.min_r by lia. rewrite Hfeb, H2. reflexivity.
  - intros H1 H2 H3. specialize (Hfeb H2). rewrite H3 in Hfeb.
    rewrite Z.min_l by lia. rewrite H1, H2. reflexivity.
Qed.

Lemma expected_date_clamped_witness :
  DateCalculator.calculate_expected_date garage_day31 (mkdate 2025 4 1)
  = Ok (mkdate 2025 4 30).
Proof.
  assert (Hg : Garage.valid garage_day31) by reflexivity.
  assert (Htm : valid_date (mkdate 2025 4 1))
    by (apply valid_dateb_true; reflexivity).
  destruct (expected_date_clamped garage_day31 (mkdate 2025 4 1) Hg Htm)
    as (_ & H & _).
  apply H. vm_compute. reflexivity.
Defined.

(** *** Ordinals and the field-wise order of dates *)

Ltac month_cases m H :=
  let Hc := fresh "Hc" in
  assert (Hc : m = 1 \/ m = 2 \/ m = 3 \/ m = 4 \/ m = 5 \/ m = 6 \/ m = 7
               \/ m = 8 \/ m = 9 \/ m = 10 \/ m = 11 \/ m = 12) by lia;
  clear H;
  repeat (destruct Hc as [Hc | Hc]; [subst m |]); [.. | subst m].

Lemma days_before_year_succ (y : Z) :
  days_before_year (y + 1)
  = days_before_year y + 365 + (if isleap y then 1 else 0).
Proof.
  unfold days_before_year, isleap.
  replace (y + 1 - 1) with y by lia.
  destruct (Z.eqb_spec (y mod 4) 0), (Z.eqb_spec (y mod 100) 0),
           (Z.eqb_spec (y mod 400) 0); simpl;
    Z.div_mod_to_equations; lia.
Qed.

Lemma days_before_year_mono (y y' : Z) :
  y <= y' -> days_before_year y <= days_before_year y'.
Proof.
  intros H. unfold days_before_year. Z.div_mod_to_equations. lia.
Qed.

Lemma day_of_year_bounds (y m d : Z) :
  1 <= m <= 12 -> 1 <= d <= monthrange_days y m ->
  1 <= days_before_month y m + d <= 365 + (if isleap y then 1 else 0).
Proof.
  intros Hm Hd. unfold days_before_month, monthrange_days in *.
  month_cases m Hm; destruct (isleap y); simpl in *; lia.
Qed.

Lemma day_of_year_month_lt (y m d m' d' : Z) :
  1 <= m -> m < m' -> m' <= 12 -> d <= monthrange_days y m -> 1 <= d' ->
  days_before_month y m + d < days_before_month y m' + d'.
Proof.
  intros H1 H2 H3 Hd Hd'. unfold days_before_month, monthrange_days in *.
  assert (Hm : 1 <= m <= 12) by lia. assert (Hm' : 1 <= m' <= 12) by lia.
  destruct (isleap y);
    month_cases m Hm; month_cases m' Hm'; simpl in *; lia.
Qed.

Lemma toordinal_lex_mono (a b : date) :
  valid_date a -> valid_date b -> lex_lt a b -> toordinal a < toordinal b.
Proof.
  intros [Hma Hda] [Hmb Hdb] Hlt. unfold toordinal.
  destruct Hlt as [Hy | [Hy [Hm | [Hm Hd]]]].
  - pose proof (day_of_year_bounds _ _ _ Hma Hda) as Ba.
    pose proof (day_of_year_bounds _ _ _ Hmb Hdb) as Bb.
    pose proof (days_before_year_succ (year a)) as Hs.
    pose proof (days_before_year_mono (year a + 1) (year b) ltac:(lia)).
    lia.
  - rewrite Hy.
    pose proof (day_of_year_month_lt (year b) (month a) (day a) (month b) (day b)).
    rewrite Hy in Hda. lia.
  - rewrite Hy, Hm. lia.
Qed.

Lemma toordinal_lt_iff_lex (a b : date) :
  valid_date a -> valid_date b -> (toordinal a < toordinal b <-> lex_lt a b).
Proof.
  intros Ha Hb. split; [| apply toordinal_lex_mono; assumption].
  intros Hlt.
  destruct (Z.lt_trichotomy (year a) (year b)) as [Hy | [Hy | Hy]];
    [left; assumption | | ].
  - destruct (Z.lt_trichotomy (month a) (month b)) as [Hm | [Hm | Hm]];
      [right; split; [assumption | left; assumption] | | ].
    + destruct (Z.lt_trichotomy (day a) (day b)) as [Hd | [Hd | Hd]];
        [right; split; [assumption | right; split; assumption] | | ].
      * exfalso. unfold toordinal in Hlt. rewrite Hy, Hm, Hd in Hlt. lia.
      * exfalso.
        assert (lex_lt b a) as Hba
          by (right; split; [lia | right; split; [lia | assumption]]).
        apply (toordinal_lex_mono b a Hb Ha) in Hba. lia.
    + exfalso.
      assert (lex_lt b a) as Hba by (right; split; [lia | left; assumption]).
      apply (toordinal_lex_mono b a Hb Ha) in Hba. lia.
  - exfalso.
    assert (lex_lt b a) as Hba by (left; assumption).
    apply (toordinal_lex_mono b a Hb Ha) in Hba. lia.
Qed.

(** The ordinals of the model stay those of [datetime] for shifts of up to a
    year from a date of the years 2 to 9998. *)
Lemma shifted_date_in_range (d : date) (n : Z) :
  valid_date d -> 2 <= year d <= 9998 -> 0 <= n <= 365 ->
  min_ordinal <= minus_days d n /\ plus_days d n <= max_ordinal.
Proof.
  intros [Hm Hd] Hy Hn. unfold minus_days, plus_days, toordinal.
  pose proof (day_of_year_bounds _ _ _ Hm Hd) as Hb.
  pose proof (days_before_year_succ (year d)) as Hs.
  pose proof (days_before_year_mono 2 (year d) ltac:(lia)) as Hlo.
  pose proof (days_before_year_mono (year d + 1) 9999 ltac:(lia)) as Hhi.
  change (days_before_year 2) with 365 in Hlo.
  change (days_before_year 9999) with 3651694 in Hhi.
  unfold min_ordinal, max_ordinal. destruct (isleap (year d)); lia.
Qed.

(** ** The status of an unpaid obligation *)

(** C6. Without a payment and with a grace period of 3 days, the status is
    NOT_DUE with offset 0 when the analysis date is before the expected
    date, PENDING with the offset [(analysis - expected).days] up to 3 days
    after it, and OVERDUE with the same offset later; for the expected date
    2025-01-15 the analysis date 2025-01-18 gives PENDING with offset 3 and
    2025-01-19 gives OVERDUE.  (Dates are compared through their ordinals,
    which is their field-wise order by [toordinal_lt_iff_lex].) *)
Theorem status_without_payment (expected analysis : date) :
  let st := StatusDeterminer.determine_status 3 expected analysis false None false in
  (toordinal analysis < toordinal expected -> st = (NOT_DUE, 0))
  /\ (toordinal expected <= toordinal analysis <= plus_days expected 3 ->
      st = (PENDING, days_between analysis expected))
  /\ (plus_days expected 3 < toordinal analysis ->
      st = (OVERDUE, days_between analysis expected))
  /\ StatusDeterminer.determine_status 3 (mkdate 2025 1 15) (mkdate 2025 1 18)
                                       false None false = (PENDING, 3)
  /\ fst (StatusDeterminer.determine_status 3 (mkdate 2025 1 15)
                                            (mkdate 2025 1 19) false None false)
     = OVERDUE.
Proof.
  cbv zeta. unfold StatusDeterminer.determine_status, ltb, leb, plus_days.
  repeat split.
  - intros H. apply Z.ltb_lt in H. rewrite H. reflexivity.
  - intros [H1 H2].
    assert (E1 : (toordinal analysis <? toordinal expected) = false)
      by (apply Z.ltb_ge; lia).
    apply Z.leb_le in H1, H2. rewrite E1, H1, H2. reflexivity.
  - intros H.
    assert (E1 : (toordinal analysis <? toordinal expected) = false)
      by (apply Z.ltb_ge; lia).
    assert (E2 : (toordinal analysis <=? toordinal expected + 3) = false)
      by (apply Z.leb_gt; lia).
    rewrite E1, E2, andb_false_r. reflexivity.
Qed.

Lemma status_without_payment_witness :
  StatusDeterminer.determine_status 3 (mkdate 2025 1 15) (mkdate 2025 1 14)
                                    false None false = (NOT_DUE, 0)
  /\ StatusDeterminer.determine_status 3 (mkdate 2025 1 15) (mkdate 2025 1 15)
                                       false None false = (PENDING, 0)
  /\ StatusDeterminer.determine_status 3 (mkdate 2025 1 15) (mkdate 2025 1 19)
                                       false None false = (OVERDUE, 4).
Proof.
  split; [| split].
  - apply (status_without_payment (mkdate 2025 1 15) (mkdate 2025 1 14)).
    vm_compute. reflexivity.
  - apply (status_without_payment (mkdate 2025 1 15) (mkdate 2025 1 15)).
    vm_compute. split; discriminate.
  - apply (status_without_payment (mkdate 2025 1 15) (mkdate 2025 1 19)).
    vm_compute. reflexivity.
Defined.

(** ** The searches of the matcher *)

Import PaymentMatcher.

Lemma min_by_first_least {A : Type} (key : A -> Z) (l : list A) (best : A) :
  exists l1 l2,
    best :: l = l1 ++ min_by key best l :: l2
    /\ (forall x, In x l1 -> key (min_by key best l) < key x)
    /\ (forall x, In x l2 -> key (min_by key best l) <= key x).
Proof.
  revert best. induction l as [| x r IH]; intros best.
  - exists [], []. simpl. repeat split; intros ? [].
  - simpl. destruct (key x <? key best) eqn:E.
    + apply Z.ltb_lt in E.
      destruct (IH x) as (l1 & l2 & Heq & H1 & H2).
      exists (best :: l1), l2. split; [simpl; rewrite Heq; reflexivity |].
      split; [| assumption].
      intros y [<- | Hy]; [| apply H1; assumption].
      destruct l1 as [| z l1'].
      * simpl in Heq. injection Heq as Hm _. rewrite <- Hm. assumption.
      * simpl in Heq. injection Heq as Hz _. subst z.
        specialize (H1 x (or_introl eq_refl)). lia.
    + apply Z.ltb_ge in E.
      destruct (IH best) as (l1 & l2 & Heq & H1 & H2).
      set (m := min_by key best r) in *.
      destruct l1 as [| z l1'].
      * simpl in Heq. injection Heq as Hm Hr.
        exists [], (x :: r). simpl.
        split; [congruence |]. split; [intros ? [] |].
        intros y [<- | Hy]; [rewrite <- Hm; exact E |].
        apply H2. rewrite <- Hr. assumption.
      * simpl in Heq. injection Heq as Hz Hr. subst z.
        exists (best :: x :: l1'), l2. simpl.
        split; [congruence |]. split; [| assumption].
        intros y [<- | [<- | Hy]].
        -- apply H1. left. reflexivity.
        -- specialize (H1 best (or_introl eq_refl)). lia.
        -- apply H1. right. assumption.
Qed.

Lemma min_by_In {A : Type} (key : A -> Z) (l : list A) (best : A) :
  In (min_by key best l) (best :: l).
Proof.
  destruct (min_by_first_least key l best) as (l1 & l2 & Heq & _).
  rewrite Heq. apply in_or_app. right. left. reflexivity.
Qed.

Lemma filter_sublist {A : Type} (f : A -> bool) (l : list A) :
  sublist (List.filter f l) l.
Proof.
  induction l as [| x r IH]; simpl.
  - constructor.
  - destruct (f x); [apply sublist_skip | apply sublist_cons]; assumption.
Qed.

Section Searches.
Variables search_window_days grace_period_days : Z.
Variable messages : gmap string string.

Lemma narrow_candidates_In amount expected transactions used analysis t :
  In t (narrow_candidates search_window_days grace_period_days amount expected
                          transactions used analysis)
  <-> In t transactions
      /\ (Transaction.addr t ∉ used)
      /\ (Qabs (tx_amount t - amount) <= 1 # 100)%Q
      /\ minus_days expected search_window_days <= toordinal (tx_date t)
         <= plus_days expected grace_period_days
      /\ toordinal (tx_date t) <= toordinal analysis.
Proof.
  unfold narrow_candidates. rewrite filter_In.
  unfold Transaction.matches_amount, leb.
  rewrite !andb_true_iff, bool_decide_eq_true, Qle_bool_iff, !Z.leb_le.
  tauto.
Qed.

Lemma fallback_candidates_In amount transactions used analysis t :
  In t (fallback_candidates amount transactions used analysis)
  <-> In t transactions
      /\ (Transaction.addr t ∉ used)
      /\ (Qabs (tx_amount t - amount) <= 1 # 100)%Q
      /\ toordinal (tx_date t) <= toordinal analysis.
Proof.
  unfold fallback_candidates. rewrite filter_In.
  unfold Transaction.matches_amount, leb.
  rewrite !andb_true_iff, bool_decide_eq_true, Qle_bool_iff, !Z.leb_le.
  tauto.
Qed.

(** What [_find_best_match] returns, by the number of candidates. *)
Lemma find_best_match_selected amount expected transactions used conflicts
    analysis :
  fst (_find_best_match search_window_days grace_period_days messages amount
         expected transactions used conflicts analysis)
  = match narrow_candidates search_window_days grace_period_days amount
            expected transactions used analysis with
    | [] => None
    | c :: rest =>
        Some (min_by (fun t => Z.abs (days_between (tx_date t) expected)) c rest)
    end.
Proof.
  unfold _find_best_match.
  destruct (narrow_candidates _ _ _ _ _ _ _) as [| c [| c' rest]]; reflexivity.
Qed.

Lemma find_fallback_match_selected amount transactions used conflicts analysis :
  fst (_find_fallback_match messages amount transactions used conflicts analysis)
  = match fallback_candidates amount transactions used analysis with
    | [] => None
    | c :: rest => Some (min_by (fun t => toordinal (tx_date t)) c rest)
    end.
Proof.
  unfold _find_fallback_match.
  destruct (fallback_candidates _ _ _ _) as [| c [| c' rest]]; reflexivity.
Qed.

(** The selection is the narrow one when there is a narrow candidate,
    the wide one otherwise. *)
Lemma select_transaction_selected amount expected transactions used conflicts
    analysis :
  fst (select_transaction search_window_days grace_period_days messages amount
         expected transactions used conflicts analysis)
  = match narrow_candidates search_window_days grace_period_days amount
            expected transactions used analysis with
    | [] =>
        fst (_find_fallback_match messages amount transactions used conflicts
                                  analysis)
    | c :: rest =>
        Some (min_by (fun t => Z.abs (days_between (tx_date t) expected)) c rest)
    end.
Proof.
  unfold select_transaction.
  pose proof (find_best_match_selected amount expected transactions used
                conflicts analysis) as H.
  destruct (_find_best_match _ _ _ _ _ _ _ _ _) as [[t |] info];
    simpl in H; destruct (narrow_candidates _ _ _ _ _ _ _);
    try discriminate; simpl; congruence.
Qed.

End Searches.

(** ** One obligation *)

Lemma payment_new_ok gid amt exp act st days nt :
  gid <> "" -> Qle_bool amt 0 = false ->
  Payment.new gid amt exp act st days nt = Ok (Payment.mk gid amt exp act st days nt).
Proof.
  intros Hid Hamt. unfold Payment.new, Payment.post_init. simpl.
  apply String.eqb_neq in Hid. rewrite Hid, Hamt. reflexivity.
Qed.

Lemma payment_new_inv gid amt exp act st days nt p :
  Payment.new gid amt exp act st days nt = Ok p ->
  p = Payment.mk gid amt exp act st days nt
  /\ gid <> "" /\ Qle_bool amt 0 = false.
Proof.
  unfold Payment.new, Payment.post_init. simpl.
  destruct (String.eqb gid "") eqn:Hid; [discriminate |].
  destruct (Qle_bool amt 0) eqn:Hamt; [discriminate |].
  intros [= <-]. apply String.eqb_neq in Hid. auto.
Qed.

Section OneGarage.
Variables search_window_days grace_period_days : Z.
Variable messages : gmap string string.
Variable transactions : list Transaction.obj.
Variables analysis_date target_month : date.
Variable amount_conflicts : list (Q * list string).

Let step := match_garage search_window_days grace_period_days messages
              transactions analysis_date target_month amount_conflicts.
Let select used (g : Garage.t) expected :=
  select_transaction search_window_days grace_period_days messages
    (Garage.monthly_rent g) expected transactions used
    (conflicts_get amount_conflicts (Garage.monthly_rent g)) analysis_date.

Let outcome g expected selection :=
  outcome_of grace_period_days messages analysis_date g expected selection.

Lemma match_garage_inv used g p sel :
  step used g = Ok (p, sel) ->
  exists expected,
    DateCalculator.calculate_expected_date g target_month = Ok expected
    /\ sel = fst (select used g expected)
    /\ p = outcome g expected (select used g expected).
Proof.
  unfold step, match_garage, select.
  destruct (DateCalculator.calculate_expected_date g target_month)
    as [expected | e]; [| discriminate].
  intros H. exists expected. split; [reflexivity |].
  cbn [mbind result_bind] in H.
  destruct (select_transaction _ _ _ _ _ _ _ _ _) as [[t |] info].
  - destruct (Payment.new _ _ _ None NOT_DUE 0 "") as [p0 | e] eqn:E0;
      [| discriminate].
    apply payment_new_inv in E0 as (-> & Hid & Hamt).
    cbn [mbind result_bind] in H.
    unfold _create_matched_payment in H.
    cbn [Payment.garage_id Payment.amount Payment.expected_date] in H.
    rewrite (payment_new_ok _ _ _ _ _ _ _ Hid Hamt) in H.
    cbn [mbind result_bind mret result_ret] in H.
    injection H as <- <-. split; reflexivity.
  - destruct (Payment.new _ _ _ None NOT_DUE 0 "") as [p0 | e] eqn:E0;
      [| discriminate].
    apply payment_new_inv in E0 as (-> & Hid & Hamt).
    cbn [mbind result_bind] in H.
    unfold _create_unmatched_payment in H.
    cbn [Payment.garage_id Payment.amount Payment.expected_date] in H.
    unfold outcome, outcome_of.
    destruct (StatusDeterminer.determine_status _ _ _ _ _ _) as [st days].
    rewrite (payment_new_ok _ _ _ _ _ _ _ Hid Hamt) in H.
    cbn [mbind result_bind mret result_ret] in H.
    injection H as <- <-. split; reflexivity.
Qed.

Lemma match_garage_total used g :
  Garage.valid g -> valid_date target_month ->
  exists expected,
    DateCalculator.calculate_expected_date g target_month = Ok expected
    /\ step used g = Ok (outcome g expected (select used g expected),
                         fst (select used g expected)).
Proof.
  intros Hg Htm.
  pose proof (calculate_expected_date_spec g target_month Hg Htm) as He.
  apply garage_valid_inv in Hg as (Hid & Hamt & _).
  eexists. split; [exact He |].
  unfold step, match_garage, select. rewrite He. cbn [mbind result_bind].
  destruct (select_transaction _ _ _ _ _ _ _ _ _) as [[t |] info].
  - rewrite (payment_new_ok _ _ _ _ _ _ _ Hid Hamt). cbn [mbind result_bind].
    unfold _create_matched_payment.
    cbn [Payment.garage_id Payment.amount Payment.expected_date].
    rewrite (payment_new_ok _ _ _ _ _ _ _ Hid Hamt). reflexivity.
  - rewrite (payment_new_ok _ _ _ _ _ _ _ Hid Hamt). cbn [mbind result_bind].
    unfold _create_unmatched_payment.
    cbn [Payment.garage_id Payment.amount Payment.expected_date].
    unfold outcome, outcome_of.
    destruct (StatusDeterminer.determine_status _ _ _ _ _ _) as [st days].
    rewrite (payment_new_ok _ _ _ _ _ _ _ Hid Hamt). reflexivity.
Qed.

End OneGarage.

(** ** The loop over the obligations *)

Lemma used_by_cons used entry log :
  used_by used (entry :: log) = used_by (mark_used used (snd entry)) log.
Proof. reflexivity. Qed.

Lemma used_by_elem used log a :
  a ∈ used_by used log
  <-> a ∈ used \/ exists p t, In (p, Some t) log /\ Transaction.addr t = a.
Proof.
  revert used. induction log as [| [p sel] log IH]; intros used.
  - simpl. split; [auto | intros [H | (? & ? & [] & _)]; exact H].
  - rewrite used_by_cons, IH. simpl. destruct sel as [t |]; simpl.
    + rewrite elem_of_union, elem_of_singleton. split.
      * intros [[-> | H] | (q & t' & Hin & E)]; eauto 7.
      * intros [H | (q & t' & [[= <- <-] | Hin] & E)]; eauto 7.
    + split.
      * intros [H | (q & t' & Hin & E)]; eauto 7.
      * intros [H | (q & t' & [[=] | Hin] & E)]; eauto 7.
Qed.

Lemma used_by_take_mono used log i j :
  (i <= j)%nat -> used_by used (take i log) ⊆ used_by used (take j log).
Proof.
  intros Hij a. rewrite !used_by_elem.
  intros [H | (p & t & Hin & E)]; [auto |].
  right. exists p, t. split; [| assumption].
  apply list_elem_of_In in Hin. apply list_elem_of_In.
  apply list_elem_of_lookup in Hin as [k Hk].
  apply lookup_take_Some in Hk as [Hk Hlt].
  apply list_elem_of_lookup. exists k. apply lookup_take_Some. split; [assumption | lia].
Qed.

Section Loop.
Variables search_window_days grace_period_days : Z.
Variable messages : gmap string string.
Variable transactions : list Transaction.obj.
Variables analysis_date target_month : date.
Variable amount_conflicts : list (Q * list string).

Let step := match_garage search_window_days grace_period_days messages
              transactions analysis_date target_month amount_conflicts.
Let loop := match_loop search_window_days grace_period_days messages
              transactions analysis_date target_month amount_conflicts.

Lemma match_loop_cons g rest used :
  loop (g :: rest) used
  = match step used g with
    | Ok (payment, transaction) =>
        match loop rest (mark_used used transaction) with
        | Ok (payments, used') => Ok ((payment, transaction) :: payments, used')
        | Raise e => Raise e
        end
    | Raise e => Raise e
    end.
Proof.
  unfold loop, step. simpl. unfold mbind, result_bind.
  destruct (match_garage _ _ _ _ _ _ _ _ _) as [[p sel] | e]; [| reflexivity].
  destruct (match_loop _ _ _ _ _ _ _ _ _) as [[ps u] | e]; reflexivity.
Qed.

(** The entries of a run: the [i]-th one is the iteration of the [i]-th
    garage, from the set of the transactions selected before it. *)
Lemma match_loop_entries garages used log u :
  loop garages used = Ok (log, u) ->
  length log = length garages
  /\ u = used_by used log
  /\ forall i g, garages !! i = Some g ->
       exists entry, log !! i = Some entry
                     /\ step (used_by used (take i log)) g = Ok entry.
Proof.
  revert used log u. induction garages as [| g rest IH]; intros used log u H.
  - injection H as <- <-. repeat split. intros i g Hi. discriminate.
  - rewrite match_loop_cons in H.
    destruct (step used g) as [[p sel] | e] eqn:Hstep; [| discriminate].
    destruct (loop rest (mark_used used sel)) as [[ps u'] | e] eqn:Hloop;
      [| discriminate].
    injection H as <- <-.
    destruct (IH _ _ _ Hloop) as (Hlen & Hu & Hent).
    split; [simpl; congruence |]. split; [assumption |].
    intros [| i] g' Hi.
    + injection Hi as <-. exists (p, sel). split; [reflexivity | assumption].
    + apply Hent in Hi as (entry & Hl & Hs). exists entry.
      split; assumption.
Qed.

Lemma match_loop_total garages used :
  Forall Garage.valid garages -> valid_date target_month ->
  exists log, loop garages used = Ok (log, used_by used log).
Proof.
  intros Hgs Htm. revert used.
  induction Hgs as [| g rest Hg _ IH]; intros used.
  - exists []. reflexivity.
  - rewrite match_loop_cons.
    destruct (match_garage_total search_window_days grace_period_days messages
                transactions analysis_date target_month amount_conflicts
                used g Hg Htm) as (expected & _ & Hstep).
    fold step in Hstep. rewrite Hstep.
    destruct (IH (mark_used used (fst (select_transaction search_window_days
                grace_period_days messages (Garage.monthly_rent g) expected
                transactions used
                (conflicts_get amount_conflicts (Garage.monthly_rent g))
                analysis_date)))) as (log & Hlog).
    rewrite Hlog.
    match goal with |- context [Ok (?e :: log, _)] => exists (e :: log) end.
    reflexivity.
Qed.

(** A selected transaction was a candidate: an unused transaction of the
    statement with the obligation's amount, not after the analysis date. *)
Lemma selected_is_candidate used g p t :
  step used g = Ok (p, Some t) ->
  In t transactions
  /\ (Transaction.addr t ∉ used)
  /\ (Qabs (tx_amount t - Garage.monthly_rent g) <= 1 # 100)%Q
  /\ toordinal (tx_date t) <= toordinal analysis_date.
Proof.
  intros H. apply match_garage_inv in H as (expected & _ & Hsel & _).
  rewrite select_transaction_selected in Hsel.
  destruct (narrow_candidates _ _ _ _ _ _ _) as [| c rest] eqn:Hn.
  - rewrite find_fallback_match_selected in Hsel.
    destruct (fallback_candidates _ _ _ _) as [| c rest] eqn:Hf;
      [discriminate |].
    injection Hsel as ->.
    pose proof (min_by_In (fun t => toordinal (tx_date t)) rest c) as Hin.
    rewrite <- Hf in Hin. apply fallback_candidates_In in Hin. exact Hin.
  - injection Hsel as ->.
    pose proof (min_by_In
                  (fun t => Z.abs (days_between (tx_date t) expected)) rest c)
      as Hin.
    rewrite <- Hn in Hin. apply narrow_candidates_In in Hin. tauto.
Qed.

End Loop.

(** ** The run *)

Section Run.
Variables search_window_days grace_period_days : Z.
Variable messages : gmap string string.

Lemma resolve_target_month_ok analysis target :
  valid_date analysis -> (forall m, target = Some m -> valid_date m) ->
  exists tm, resolve_target_month analysis target = Ok tm /\ valid_date tm.
Proof.
  intros Ha Ht. destruct target as [m |]; simpl.
  - exists m. split; [reflexivity | apply Ht; reflexivity].
  - destruct Ha as [Hm _].
    pose proof (monthrange_days_bounds (year analysis) _ Hm) as Hb.
    exists (mkdate (year analysis) (month analysis) 1).
    split; [apply date_new_ok; lia |]. unfold valid_date. simpl. lia.
Qed.

Lemma match_trace_inv garages transactions analysis target log :
  match_trace search_window_days grace_period_days messages garages
              transactions analysis target = Ok log ->
  exists tm,
    resolve_target_month analysis target = Ok tm
    /\ match_loop search_window_days grace_period_days messages transactions
         analysis tm (_find_amount_conflicts garages) garages ∅
       = Ok (log, used_by ∅ log).
Proof.
  unfold match_trace. intros H.
  destruct (resolve_target_month analysis target) as [tm | e]; [| discriminate].
  cbn [mbind result_bind] in H. exists tm. split; [reflexivity |].
  destruct (match_loop _ _ _ _ _ _ _ _ _) as [[log' u] | e] eqn:Hloop;
    [| discriminate].
  injection H as ->.
  pose proof (match_loop_entries _ _ _ _ _ _ _ _ _ _ _ Hloop) as (_ & -> & _).
  reflexivity.
Qed.

Lemma match_trace_total garages transactions analysis target :
  Forall Garage.valid garages -> valid_date analysis ->
  (forall m, target = Some m -> valid_date m) ->
  exists log,
    match_trace search_window_days grace_period_days messages garages
                transactions analysis target = Ok log.
Proof.
  intros Hgs Ha Ht.
  destruct (resolve_target_month_ok analysis target Ha Ht) as (tm & Hr & Htm).
  destruct (match_loop_total search_window_days grace_period_days messages
              transactions analysis tm (_find_amount_conflicts garages)
              garages ∅ Hgs Htm) as (log & Hloop).
  exists log. unfold match_trace. rewrite Hr. cbn [mbind result_bind].
  rewrite Hloop. reflexivity.
Qed.

(** Every entry of a run is the iteration of its garage, from the
    transactions that the earlier entries used. *)
Lemma match_trace_entries garages transactions analysis target log :
  match_trace search_window_days grace_period_days messages garages
              transactions analysis target = Ok log ->
  exists tm,
    resolve_target_month analysis target = Ok tm
    /\ length log = length garages
    /\ forall i g, garages !! i = Some g ->
         exists entry,
           log !! i = Some entry
           /\ match_garage search_window_days grace_period_days messages
                transactions analysis tm (_find_amount_conflicts garages)
                (used_by ∅ (take i log)) g = Ok entry.
Proof.
  intros H. apply match_trace_inv in H as (tm & Hr & Hloop).
  exists tm. split; [assumption |].
  apply match_loop_entries in Hloop as (Hlen & _ & Hent). auto.
Qed.

End Run.

(** ** Outcomes of a run *)

(** C1. In a run, an obligation for which a transaction was selected, by
    the narrow or by the wide search, has the status RECEIVED, the date of
    that transaction as matched date, and the signed number of days from the
    expected date to it as offset (positive when late, negative when early);
    no date window is checked again. *)
Theorem matched_outcome_received
    (search_window_days grace_period_days : Z) (messages : gmap string string)
    (garages : list Garage.t) (transactions : list Transaction.obj)
    (analysis : date) (target : option date)
    (log : list (Payment.t * option Transaction.obj)) :
  match_trace search_window_days grace_period_days messages garages transactions
              analysis target = Ok log ->
  forall i p t, log !! i = Some (p, Some t) ->
    Payment.status p = RECEIVED
    /\ Payment.actual_date p = Some (tx_date t)
    /\ Payment.days_overdue p
       = toordinal (tx_date t) - toordinal (Payment.expected_date p)
    /\ (toordinal (Payment.expected_date p) < toordinal (tx_date t) ->
        0 < Payment.days_overdue p)
    /\ (toordinal (tx_date t) < toordinal (Payment.expected_date p) ->
        Payment.days_overdue p < 0)
    /\ exists g tm,
         garages !! i = Some g
         /\ resolve_target_month analysis target = Ok tm
         /\ DateCalculator.calculate_expected_date g tm
            = Ok (Payment.expected_date p).
Proof.
  intros Hrun i p t Hi.
  apply match_trace_entries in Hrun as (tm & Hr & Hlen & Hent).
  assert (Hlt : (i < length garages)%nat)
    by (rewrite <- Hlen; eapply lookup_lt_Some; eassumption).
  apply lookup_lt_is_Some in Hlt as [g Hg].
  destruct (Hent i g Hg) as (entry & Hi' & Hstep).
  rewrite Hi in Hi'. injection Hi' as <-.
  apply match_garage_inv in Hstep as (expected & Hexp & Hsel & ->).
  destruct (select_transaction _ _ _ _ _ _ _ _ _) as [[t' |] info];
    simpl in Hsel; [| discriminate].
  injection Hsel as <-. simpl. unfold days_between.
  repeat split; try lia.
  exists g, tm. auto.
Qed.

Lemma matched_outcome_received_witness :
  exists p,
    match_trace 7 3 I18n.default_messages [garage_g1] statement_wide
                (mkdate 2025 3 20) (Some (mkdate 2025 1 1))
    = Ok [(p, Some (tx 2 (mkdate 2024 11 1) (3500 # 1)))]
    /\ Payment.status p = RECEIVED
    /\ Payment.actual_date p = Some (mkdate 2024 11 1)
    /\ Payment.days_overdue p = -75
    /\ StatusDeterminer.determine_status 3 (mkdate 2025 1 15) (mkdate 2025 3 20)
         true (Some (mkdate 2024 11 1)) false = (UNCLEAR, 0).
Proof.
  eexists. split; [vm_compute; reflexivity |].
  pose proof (matched_outcome_received 7 3 I18n.default_messages [garage_g1]
                statement_wide (mkdate 2025 3 20) (Some (mkdate 2025 1 1)) _
                ltac:(vm_compute; reflexivity) 0%nat _ _ eq_refl)
    as (H1 & H2 & H3 & _).
  split; [exact H1 |]. split; [exact H2 |]. split; [exact H3 |].
  vm_compute. reflexivity.
Defined.



(** ** The two searches *)

(** C4. The candidates of the narrow search are exactly the transactions of
    the statement, in its order, that are not used, whose amount differs
    from the obligation's by at most 0.01, whose date lies between
    [expected - search_window_days] and [expected + grace_period_days]
    (7 and 3 by default) and is not after the analysis date.  None gives no
    match, one is selected, and of two or more the first one, in the order
    of the statement, at the least distance in days from the expected date
    is selected. *)
Theorem narrow_search_closest
    (search_window_days grace_period_days : Z) (messages : gmap string string)
    (amount : Q) (expected : date) (transactions : list Transaction.obj)
    (used : gset nat) (conflicts : list string) (analysis : date) :
  let candidates :=
    narrow_candidates search_window_days grace_period_days amount expected
                      transactions used analysis in
  let selected :=
    fst (_find_best_match search_window_days grace_period_days messages amount
           expected transactions used conflicts analysis) in
  let distance t := Z.abs (toordinal (tx_date t) - toordinal expected) in
  (forall t, In t candidates
     <-> In t transactions
         /\ (Transaction.addr t ∉ used)
         /\ (Qabs (tx_amount t - amount) <= 1 # 100)%Q
         /\ toordinal expected - search_window_days <= toordinal (tx_date t)
            <= toordinal expected + grace_period_days
         /\ toordinal (tx_date t) <= toordinal analysis)
  /\ sublist candidates transactions
  /\ (candidates = [] -> selected = None)
  /\ (forall c, candidates = [c] -> selected = Some c)
  /\ ((2 <= length candidates)%nat ->
      exists best before after,
        selected = Some best
        /\ candidates = before ++ best :: after
        /\ (forall c, In c before -> distance best < distance c)
        /\ (forall c, In c after -> distance best <= distance c))
  /\ default_search_window_days = 7
  /\ default_grace_period_days = 3.
Proof.
  intros candidates selected distance.
  split; [intros t; apply narrow_candidates_In |].
  split; [apply filter_sublist |].
  unfold selected. rewrite find_best_match_selected. fold candidates.
  split; [intros ->; reflexivity |].
  split; [intros c ->; reflexivity |].
  split; [| split; reflexivity].
  intros Hlen. destruct candidates as [| c rest]; [simpl in Hlen; lia |].
  destruct (min_by_first_least
              (fun t => Z.abs (days_between (tx_date t) expected)) rest c)
    as (before & after & Heq & Hb & Ha).
  eexists _, before, after. split; [reflexivity |].
  split; [exact Heq |]. split; assumption.
Qed.

Lemma narrow_search_closest_witness :
  fst (_find_best_match 7 3 I18n.default_messages (3500 # 1) (mkdate 2025 1 15)
         [tx 1 (mkdate 2025 1 10) (3500 # 1); tx 2 (mkdate 2025 1 14) (3500 # 1);
          tx 3 (mkdate 2025 1 16) (3500 # 1)] ∅ [] (mkdate 2025 1 20))
  = Some (tx 2 (mkdate 2025 1 14) (3500 # 1))
  /\ fst (_find_best_match 7 3 I18n.default_messages (3500 # 1) (mkdate 2025 1 15)
            [tx 1 (mkdate 2025 1 16) (3500 # 1); tx 2 (mkdate 2025 1 14) (3500 # 1)]
            ∅ [] (mkdate 2025 1 20))
     = Some (tx 1 (mkdate 2025 1 16) (3500 # 1)).
Proof.
  split.
  - destruct (narrow_search_closest 7 3 I18n.default_messages (3500 # 1)
                (mkdate 2025 1 15)
                [tx 1 (mkdate 2025 1 10) (3500 # 1);
                 tx 2 (mkdate 2025 1 14) (3500 # 1);
                 tx 3 (mkdate 2025 1 16) (3500 # 1)] ∅ [] (mkdate 2025 1 20))
      as (_ & _ & _ & _ & H & _).
    destruct H as (best & before & after & Hsel & _); [vm_compute; lia |].
    rewrite Hsel. vm_compute in Hsel. exact (eq_sym Hsel).
  - destruct (narrow_search_closest 7 3 I18n.default_messages (3500 # 1)
                (mkdate 2025 1 15)
                [tx 1 (mkdate 2025 1 16) (3500 # 1);
                 tx 2 (mkdate 2025 1 14) (3500 # 1)] ∅ [] (mkdate 2025 1 20))
      as (_ & _ & _ & _ & H & _).
    destruct H as (best & before & after & Hsel & _); [vm_compute; lia |].
    rewrite Hsel. vm_compute in Hsel. exact (eq_sym Hsel).
Defined.

(** C3. When the narrow search has no candidate, the obligation's selection
    is that of the wide search.  Its candidates are exactly the transactions
    of the statement, in its order, that are not used, whose amount differs
    from the obligation's by at most 0.01 and whose date is not after the
    analysis date: no date window restricts them.  Of two or more, the
    first one with the earliest date is selected, whatever its distance to
    the expected date. *)
Theorem fallback_search_earliest
    (search_window_days grace_period_days : Z) (messages : gmap string string)
    (amount : Q) (expected : date) (transactions : list Transaction.obj)
    (used : gset nat) (conflicts : list string) (analysis : date) :
  let candidates := fallback_candidates amount transactions used analysis in
  let selected :=
    fst (_find_fallback_match messages amount transactions used conflicts
                              analysis) in
  (narrow_candidates search_window_days grace_period_days amount expected
                     transactions used analysis = [] ->
   select_transaction search_window_days grace_period_days messages amount
                      expected transactions used conflicts analysis
   = _find_fallback_match messages amount transactions used conflicts analysis)
  /\ (forall t, In t candidates
        <-> In t transactions
            /\ (Transaction.addr t ∉ used)
            /\ (Qabs (tx_amount t - amount) <= 1 # 100)%Q
            /\ toordinal (tx_date t) <= toordinal analysis)
  /\ sublist candidates transactions
  /\ (candidates = [] -> selected = None)
  /\ (forall c, candidates = [c] -> selected = Some c)
  /\ ((2 <= length candidates)%nat ->
      exists best before after,
        selected = Some best
        /\ candidates = before ++ best :: after
        /\ (forall c, In c before -> toordinal (tx_date best) < toordinal (tx_date c))
        /\ (forall c, In c after -> toordinal (tx_date best) <= toordinal (tx_date c))).
Proof.
  intros candidates selected.
  split.
  { intros Hn. unfold select_transaction, _find_best_match. rewrite Hn.
    reflexivity. }
  split; [intros t; apply fallback_candidates_In |].
  split; [apply filter_sublist |].
  unfold selected. rewrite find_fallback_match_selected. fold candidates.
  split; [intros ->; reflexivity |].
  split; [intros c ->; reflexivity |].
  intros Hlen. destruct candidates as [| c rest]; [simpl in Hlen; lia |].
  destruct (min_by_first_least (fun t => toordinal (tx_date t)) rest c)
    as (before & after & Heq & Hb & Ha).
  eexists _, before, after. split; [reflexivity |].
  split; [exact Heq |]. split; assumption.
Qed.

Lemma fallback_search_earliest_witness :
  narrow_candidates 7 3 (3500 # 1) (mkdate 2025 1 15) statement_wide ∅
                    (mkdate 2025 3 20) = []
  /\ fst (select_transaction 7 3 I18n.default_messages (3500 # 1)
            (mkdate 2025 1 15) statement_wide ∅ [] (mkdate 2025 3 20))
     = Some (tx 2 (mkdate 2024 11 1) (3500 # 1))
  /\ Z.abs (days_between (mkdate 2025 1 30) (mkdate 2025 1 15))
     < Z.abs (days_between (mkdate 2024 11 1) (mkdate 2025 1 15)).
Proof.
  assert (Hn : narrow_candidates 7 3 (3500 # 1) (mkdate 2025 1 15) statement_wide
                 ∅ (mkdate 2025 3 20) = []) by (vm_compute; reflexivity).
  split; [exact Hn |]. split; [| vm_compute; reflexivity].
  destruct (fallback_search_earliest 7 3 I18n.default_messages (3500 # 1)
              (mkdate 2025 1 15) statement_wide ∅ [] (mkdate 2025 3 20))
    as (Hsel & _ & _ & _ & _ & H).
  rewrite (Hsel Hn).
  destruct H as (best & before & after & Hbest & _); [vm_compute; lia |].
  rewrite Hbest. vm_compute in Hbest. exact (eq_sym Hbest).
Defined.

(** ** Consumption of transactions *)

Lemma used_excluded_narrow sw gr amount expected transactions used analysis c :
  Transaction.addr c ∈ used ->
  ~ In c (narrow_candidates sw gr amount expected transactions used analysis).
Proof. rewrite narrow_candidates_In. tauto. Qed.

Lemma used_excluded_fallback amount transactions used analysis c :
  Transaction.addr c ∈ used ->
  ~ In c (fallback_candidates amount transactions used analysis).
Proof. rewrite fallback_candidates_In. tauto. Qed.

Lemma selected_in_used_later
    (log : list (Payment.t * option Transaction.obj)) i j p t :
  (i < j)%nat -> log !! i = Some (p, Some t) ->
  Transaction.addr t ∈ used_by ∅ (take j log).
Proof.
  intros Hij Hi. apply used_by_elem. right. exists p, t.
  split; [| reflexivity].
  apply list_elem_of_In, list_elem_of_lookup. exists i.
  apply lookup_take_Some. split; assumption.
Qed.

(** C7. In a run, no transaction object is selected for two obligations: a
    transaction selected for an obligation is in the set of used
    transactions of every later obligation, and so is in neither of its
    candidate lists.  Consumption goes by the identity of the object:
    marking a transaction as used removes from the candidates only the
    objects at its address, so another object with the same date, amount
    and category remains a candidate. *)
Theorem consumed_at_most_once
    (search_window_days grace_period_days : Z) (messages : gmap string string)
    (garages : list Garage.t) (transactions : list Transaction.obj)
    (analysis : date) (target : option date)
    (log : list (Payment.t * option Transaction.obj)) :
  match_trace search_window_days grace_period_days messages garages transactions
              analysis target = Ok log ->
  (forall i j p t p' t',
      log !! i = Some (p, Some t) -> log !! j = Some (p', Some t') ->
      Transaction.addr t = Transaction.addr t' -> i = j)
  /\ (forall i j p t g,
        (i < j)%nat -> log !! i = Some (p, Some t) -> garages !! j = Some g ->
        let used_j := used_by ∅ (take j log) in
        exists tm entry,
          resolve_target_month analysis target = Ok tm
          /\ log !! j = Some entry
          /\ match_garage search_window_days grace_period_days messages
               transactions analysis tm (_find_amount_conflicts garages)
               used_j g = Ok entry
          /\ Transaction.addr t ∈ used_j
          /\ forall amount expected c,
               Transaction.addr c = Transaction.addr t ->
               ~ In c (narrow_candidates search_window_days grace_period_days
                         amount expected transactions used_j analysis)
               /\ ~ In c (fallback_candidates amount transactions used_j analysis))
  /\ (forall used t amount expected c,
        Transaction.addr c <> Transaction.addr t ->
        (In c (narrow_candidates search_window_days grace_period_days amount
                 expected transactions used analysis) ->
         In c (narrow_candidates search_window_days grace_period_days amount
                 expected transactions (mark_used used (Some t)) analysis))
        /\ (In c (fallback_candidates amount transactions used analysis) ->
            In c (fallback_candidates amount transactions
                    (mark_used used (Some t)) analysis))).
Proof.
  intros Hrun.
  destruct (match_trace_entries _ _ _ _ _ _ _ _ Hrun) as (tm & Hr & Hlen & Hent).
  assert (Hlater : forall i j p t p' t', (i < j)%nat ->
            log !! i = Some (p, Some t) -> log !! j = Some (p', Some t') ->
            Transaction.addr t <> Transaction.addr t').
  { intros i j p t p' t' Hij Hi Hj Heq.
    assert (Hlt : (j < length garages)%nat)
      by (rewrite <- Hlen; eapply lookup_lt_Some; eassumption).
    apply lookup_lt_is_Some in Hlt as [g Hg].
    destruct (Hent j g Hg) as (entry & Hj' & Hstep).
    rewrite Hj in Hj'. injection Hj' as <-.
    apply selected_is_candidate in Hstep as (_ & Hfresh & _).
    apply Hfresh. rewrite <- Heq. eapply selected_in_used_later; eassumption. }
  split; [| split].
  - intros i j p t p' t' Hi Hj Heq.
    destruct (Nat.lt_trichotomy i j) as [Hij | [Hij | Hij]]; [| assumption |].
    + exfalso. exact (Hlater _ _ _ _ _ _ Hij Hi Hj Heq).
    + exfalso. exact (Hlater _ _ _ _ _ _ Hij Hj Hi (eq_sym Heq)).
  - intros i j p t g Hij Hi Hg used_j.
    destruct (Hent j g Hg) as (entry & Hj & Hstep).
    assert (Hin : Transaction.addr t ∈ used_j)
      by (eapply selected_in_used_later; eassumption).
    exists tm, entry. repeat split; try assumption.
    + apply used_excluded_narrow. congruence.
    + apply used_excluded_fallback. congruence.
  - intros used t amount expected c Hne. simpl.
    rewrite !narrow_candidates_In, !fallback_candidates_In.
    rewrite !not_elem_of_union, !not_elem_of_singleton. tauto.
Qed.

Lemma consumed_at_most_once_witness :
  exists p1 p2 q1 q2,
    match_trace 7 3 I18n.default_messages [garage_g1; garage_g2] statement_twins
                (mkdate 2025 1 20) None
    = Ok [(p1, Some (tx 1 (mkdate 2025 1 15) (3500 # 1)));
          (p2, Some (tx 2 (mkdate 2025 1 15) (3500 # 1)))]
    /\ Payment.status p1 = RECEIVED /\ Payment.status p2 = RECEIVED
    /\ match_trace 7 3 I18n.default_messages [garage_g1; garage_g2]
                   statement_alias (mkdate 2025 1 20) None
       = Ok [(q1, Some (tx 1 (mkdate 2025 1 15) (3500 # 1))); (q2, None)]
    /\ Payment.status q1 = RECEIVED /\ Payment.status q2 = OVERDUE
    /\ ~ In (tx 1 (mkdate 2025 1 15) (3500 # 1))
            (fallback_candidates (3500 # 1) statement_twins {[1%nat]}
                                 (mkdate 2025 1 20)).
Proof.
  do 4 eexists.
  split; [vm_compute; reflexivity |].
  split; [reflexivity |]. split; [reflexivity |].
  split; [vm_compute; reflexivity |].
  split; [reflexivity |]. split; [reflexivity |].
  destruct (consumed_at_most_once 7 3 I18n.default_messages
              [garage_g1; garage_g2] statement_twins (mkdate 2025 1 20) None _
              ltac:(vm_compute; reflexivity)) as (_ & H & _).
  destruct (H 0%nat 1%nat _ _ garage_g2 ltac:(lia) eq_refl eq_refl)
    as (tm & entry & _ & _ & _ & _ & Hex).
  destruct (Hex (3500 # 1) (mkdate 2025 1 16)
                (tx 1 (mkdate 2025 1 15) (3500 # 1)) eq_refl) as [_ Hf].
  intros Hin. apply Hf. vm_compute. vm_compute in Hin. exact Hin.
Defined.

(** ** The report *)

Lemma fold_left_add_shift (l : list Z) (a b : Z) :
  fold_left Z.add l (a + b) = a + fold_left Z.add l b.
Proof.
  revert b. induction l as [| x l IH]; intros b; simpl; [reflexivity |].
  rewrite <- Z.add_assoc. apply IH.
Qed.

Lemma sum_Z_from (l : list Z) (a : Z) : fold_left Z.add l a = a + Report.sum_Z l.
Proof.
  unfold Report.sum_Z. rewrite <- fold_left_add_shift. f_equal. lia.
Qed.

Lemma count_status_cons st p payments :
  Report.count_status st (p :: payments)
  = (if PaymentStatus_eqb (Payment.status p) st then 1 else 0)
    + Report.count_status st payments.
Proof.
  unfold Report.count_status. simpl.
  destruct (PaymentStatus_eqb (Payment.status p) st); [| lia].
  simpl. unfold Report.sum_Z at 1. simpl. apply sum_Z_from.
Qed.

Lemma count_status_nonneg st payments : 0 <= Report.count_status st payments.
Proof.
  induction payments as [| p ps IH]; [reflexivity |].
  rewrite count_status_cons. destruct (PaymentStatus_eqb _ _); lia.
Qed.

Lemma status_counts_total payments :
  Report.count_status RECEIVED payments + Report.count_status OVERDUE payments
  + Report.count_status PENDING payments + Report.count_status NOT_DUE payments
  + Report.count_status UNCLEAR payments
  = Z.of_nat (length payments).
Proof.
  induction payments as [| p ps IH]; [reflexivity |].
  rewrite !count_status_cons. cbn [length]. rewrite Nat2Z.inj_succ, <- IH.
  destruct (Payment.status p); simpl; lia.
Qed.

Lemma sum_Q_from (l : list Q) (a : Q) :
  (fold_left Qplus l a == a + fold_right Qplus 0 l)%Q.
Proof.
  revert a. induction l as [| x l IH]; intros a; simpl.
  - ring.
  - rewrite IH. ring.
Qed.

Lemma sum_Q_fold_right (l : list Q) : (Report.sum_Q l == fold_right Qplus 0 l)%Q.
Proof. unfold Report.sum_Q. rewrite sum_Q_from. ring. Qed.



(** C10. A report of no payment cannot be built: [PaymentReport.create] (and
    the constructor) raises [ValueError] on the empty list, so that every
    report that is built holds at least one payment. *)
Theorem empty_report_rejected (today : date) (now : Z)
    (garage_file statement_file : string) (analysis : option date)
    (notes : option (list string)) :
  Report.create today now garage_file statement_file [] analysis notes
  = Raise (ValueError "Report must contain at least one payment")
  /\ (forall generated_at analysis_date summary notes',
        Report.new generated_at analysis_date garage_file statement_file []
                   summary notes'
        = Raise (ValueError "Report must contain at least one payment"))
  /\ (forall payments report,
        Report.create today now garage_file statement_file payments analysis notes
        = Ok report ->
        Report.payments report = payments /\ (1 <= length payments)%nat).
Proof.
  split; [reflexivity |]. split; [reflexivity |].
  intros payments report. unfold Report.create, Report.new, Report.post_init.
  cbn [Report.payments Report.garage_file Report.statement_file].
  destruct payments as [| p ps]; [discriminate |].
  destruct (String.eqb garage_file "" || String.eqb statement_file "");
    [discriminate |].
  intros [= <-]. simpl. split; [reflexivity | lia].
Qed.

Lemma empty_report_rejected_witness :
  exists report,
    Report.create (mkdate 2025 1 20) 0 "garages.xlsx" "statement.xlsx"
                  [payment_of "1" (3500 # 1) RECEIVED] None None = Ok report
    /\ Report.payments report = [payment_of "1" (3500 # 1) RECEIVED]
    /\ Report.create (mkdate 2025 1 20) 0 "garages.xlsx" "statement.xlsx"
                     [] None None
       = Raise (ValueError "Report must contain at least one payment").
Proof.
  eexists. split; [reflexivity |].
  destruct (empty_report_rejected (mkdate 2025 1 20) 0 "garages.xlsx"
              "statement.xlsx" None None) as (H0 & _ & H).
  split; [| exact H0].
  exact (proj1 (H [payment_of "1" (3500 # 1) RECEIVED] _ eq_refl)).
Defined.

(** ** Amount conflicts and notes *)

Lemma prefix_append (sub post : string) : String.prefix sub (sub +:+ post) = true.
Proof.
  induction sub as [| c sub IH]; simpl.
  - destruct post; reflexivity.
  - destruct (ascii_dec c c) as [_ | Hne]; [exact IH | contradiction].
Qed.

Lemma occurs_prefix (sub s : string) :
  String.prefix sub s = true -> occurs sub s = true.
Proof. intros H. destruct s; cbn [occurs]; rewrite H; reflexivity. Qed.

Lemma contains_occurs (s sub : string) : contains s sub -> occurs sub s = true.
Proof.
  intros (pre & post & ->). induction pre as [| c pre IH].
  - apply occurs_prefix. exact (prefix_append sub post).
  - change (occurs sub (String c pre +:+ sub +:+ post))
      with (String.prefix sub (String c (pre +:+ sub +:+ post))
            || occurs sub (pre +:+ sub +:+ post)).
    rewrite IH. apply orb_true_r.
Qed.

(** C2, as stated, fails: two garages with the same rent and no transaction
    give two outcomes whose notes are "No matching payment found", which
    names no garage. *)
Lemma conflict_note_missing_when_unmatched : ~ conflict_note_on_every_outcome.
Proof.
  intros Hclaim.
  specialize (Hclaim [garage_g1; garage_g2] [] (mkdate 2025 1 20) None _
                ltac:(vm_compute; reflexivity) 0%nat 1%nat garage_g1 garage_g2 _
                ltac:(lia) eq_refl eq_refl ltac:(reflexivity) eq_refl).
  apply contains_occurs in Hclaim. vm_compute in Hclaim. discriminate.
Qed.

(** *** The dictionary of amount conflicts *)

Lemma Qeq_bool_key_r (k r r' : Q) :
  Qeq_bool r r' = true -> Qeq_bool k r = Qeq_bool k r'.
Proof. intros H. apply Qeq_bool_eq in H. rewrite H. reflexivity. Qed.

Lemma Qeq_bool_key_l (k r r' : Q) :
  Qeq_bool k r = true -> Qeq_bool k r' = Qeq_bool r r'.
Proof. intros H. apply Qeq_bool_eq in H. rewrite H. reflexivity. Qed.

Lemma amap_get_key (m : list (Q * list string)) (r r' : Q) :
  Qeq_bool r r' = true -> amap_get m r = amap_get m r'.
Proof.
  intros H. induction m as [| [k ids] rest IH]; [reflexivity |].
  simpl. rewrite (Qeq_bool_key_r k r r' H), IH. reflexivity.
Qed.

Lemma amap_get_add (m : list (Q * list string)) (r : Q) (gid : string) (r' : Q) :
  amap_get (amount_map_add m r gid) r'
  = if Qeq_bool r r' then Some (default [] (amap_get m r) ++ [gid])
    else amap_get m r'.
Proof.
  induction m as [| [k ids] rest IH]; simpl.
  - destruct (Qeq_bool r r'); reflexivity.
  - destruct (Qeq_bool k r) eqn:Hkr; simpl.
    + rewrite (Qeq_bool_key_l k r r' Hkr).
      destruct (Qeq_bool r r'); reflexivity.
    + rewrite IH. destruct (Qeq_bool k r') eqn:Hkr'; [| reflexivity].
      rewrite Qeq_bool_comm in Hkr.
      rewrite <- (Qeq_bool_key_r r k r' Hkr'), Hkr. reflexivity.
Qed.

Lemma amount_map_add_distinct (m : list (Q * list string)) (r : Q) (gid : string) :
  keys_distinct m -> keys_distinct (amount_map_add m r gid).
Proof.
  induction m as [| [k ids] rest IH]; simpl.
  - auto.
  - intros [Hk Hrest]. destruct (Qeq_bool k r) eqn:Hkr; simpl.
    + auto.
    + split; [| auto]. rewrite amap_get_add, Qeq_bool_comm, Hkr. assumption.
Qed.

Lemma amap_get_fold (garages : list Garage.t) (m : list (Q * list string)) (r : Q) :
  amap_get
    (fold_left (fun m g => amount_map_add m (Garage.monthly_rent g) (Garage.id g))
               garages m) r
  = match ids_sharing r garages with
    | [] => amap_get m r
    | ids => Some (default [] (amap_get m r) ++ ids)
    end.
Proof.
  revert m. unfold ids_sharing.
  induction garages as [| g rest IH]; intros m; [reflexivity |].
  cbn [fold_left List.filter]. rewrite IH, amap_get_add.
  destruct (Qeq_bool (Garage.monthly_rent g) r) eqn:Hg; cbn [map].
  - rewrite (amap_get_key m _ _ Hg).
    destruct (map Garage.id (List.filter _ rest)) as [| x ids]; simpl;
      [reflexivity |].
    rewrite <- app_assoc. reflexivity.
  - reflexivity.
Qed.

Lemma fold_amount_map_distinct (garages : list Garage.t) (m : list (Q * list string)) :
  keys_distinct m ->
  keys_distinct
    (fold_left (fun m g => amount_map_add m (Garage.monthly_rent g) (Garage.id g))
               garages m).
Proof.
  revert m. induction garages as [| g rest IH]; intros m Hm; [exact Hm |].
  simpl. apply IH, amount_map_add_distinct, Hm.
Qed.

Lemma conflicts_get_filter (m : list (Q * list string)) (r : Q) :
  keys_distinct m ->
  conflicts_get (List.filter (fun kv => (1 <? length (snd kv))%nat) m) r
  = match amap_get m r with
    | Some ids => if (1 <? length ids)%nat then ids else []
    | None => []
    end.
Proof.
  induction m as [| [k ids] rest IH]; [reflexivity |].
  intros [Hk Hrest]. cbn [List.filter snd amap_get].
  destruct (Qeq_bool k r) eqn:Hkr.
  - destruct (1 <? length ids)%nat; cbn [conflicts_get]; [rewrite Hkr; reflexivity |].
    rewrite (IH Hrest), <- (amap_get_key rest k r Hkr), Hk. reflexivity.
  - destruct (1 <? length ids)%nat; cbn [conflicts_get]; [rewrite Hkr |];
      apply IH, Hrest.
Qed.

(** What the matcher passes to the searches as [conflicting_garages]: the
    garages with the rent, when they are two or more. *)
Lemma conflicting_garages_spec (garages : list Garage.t) (r : Q) :
  conflicts_get (_find_amount_conflicts garages) r
  = if (1 <? length (ids_sharing r garages))%nat then ids_sharing r garages
    else [].
Proof.
  unfold _find_amount_conflicts.
  rewrite conflicts_get_filter by (apply fold_amount_map_distinct; exact I).
  rewrite amap_get_fold. cbn [amap_get default app].
  destruct (ids_sharing r garages); reflexivity.
Qed.

Lemma filter_two {A : Type} (f : A -> bool) (l : list A) (i j : nat) (x y : A) :
  (i < j)%nat -> l !! i = Some x -> l !! j = Some y -> f x = true -> f y = true ->
  (2 <= length (List.filter f l))%nat /\ In x (List.filter f l)
  /\ In y (List.filter f l).
Proof.
  intros Hij Hi Hj Hx Hy.
  assert (Hinx : In x (List.filter f l)).
  { apply filter_In. split; [| assumption].
    apply list_elem_of_In, list_elem_of_lookup. eauto. }
  assert (Hiny : In y (List.filter f l)).
  { apply filter_In. split; [| assumption].
    apply list_elem_of_In, list_elem_of_lookup. eauto. }
  split; [| auto]. clear Hinx Hiny.
  revert i j Hij Hi Hj. induction l as [| a l IH]; intros i j Hij Hi Hj.
  - discriminate.
  - destruct j as [| j]; [lia |]. simpl in Hj. destruct i as [| i].
    + injection Hi as ->. simpl. rewrite Hx. simpl.
      assert (In y (List.filter f l)) as Hin.
      { apply filter_In. split; [| assumption].
        apply list_elem_of_In, list_elem_of_lookup. eauto. }
      destruct (List.filter f l); [destruct Hin | simpl; lia].
    + simpl in Hi. specialize (IH i j ltac:(lia) Hi Hj).
      simpl. destruct (f a); simpl; lia.
Qed.

(** *** The notes of a matched obligation *)

Lemma append_nil_r (s : string) : s +:+ "" = s.
Proof.
  induction s as [| c s IH]; [reflexivity |].
  change (String c s +:+ "") with (String c (s +:+ "")). rewrite IH. reflexivity.
Qed.

Lemma append_assoc (s t u : string) : (s +:+ t) +:+ u = s +:+ t +:+ u.
Proof.
  induction s as [| c s IH]; [reflexivity |].
  change ((String c s +:+ t) +:+ u) with (String c ((s +:+ t) +:+ u)).
  rewrite IH. reflexivity.
Qed.

Lemma append_nonempty_r (s t : string) : t <> "" -> s +:+ t <> "".
Proof. destruct s; simpl; [auto | discriminate]. Qed.

Lemma contains_here (pre s post : string) : contains (pre +:+ s +:+ post) s.
Proof. exists pre, post. reflexivity. Qed.

Lemma contains_suffix (pre s : string) : contains (pre +:+ s) s.
Proof. exists pre, "". rewrite append_nil_r. reflexivity. Qed.

Lemma contains_append_r (s t sub : string) : contains t sub -> contains (s +:+ t) sub.
Proof.
  intros (pre & post & ->). exists (s +:+ pre), post.
  rewrite append_assoc. reflexivity.
Qed.

Lemma contains_append_l (s t sub : string) : contains s sub -> contains (s +:+ t) sub.
Proof.
  intros (pre & post & ->). exists pre, (post +:+ t).
  rewrite !append_assoc. reflexivity.
Qed.

Lemma matched_notes_nonempty (messages : gmap string string) (info : string) :
  info <> "" -> matched_notes messages info = info.
Proof.
  intros H. unfold matched_notes. apply String.eqb_neq in H. rewrite H.
  reflexivity.
Qed.

Section DefaultTemplates.
Variable messages : gmap string string.
Hypothesis amount_shared_default : messages !! "notes.amount_shared" = None.
Hypothesis wide_search_shared_default :
  messages !! "notes.wide_search_shared" = None.

Lemma get_amount_conflict (joined : string) :
  I18n.get messages "notes.amount_shared"
           "Amount conflict with garages: {garages}" [("garages", joined)]
  = "Amount conflict with garages: " +:+ joined.
Proof.
  unfold I18n.get. rewrite amount_shared_default. cbv -[String.append].
  rewrite append_nil_r. reflexivity.
Qed.

Lemma get_amount_shared (joined : string) :
  I18n.get messages "notes.amount_shared"
           "amount shared with garages: {garages}" [("garages", joined)]
  = "amount shared with garages: " +:+ joined.
Proof.
  unfold I18n.get. rewrite amount_shared_default. cbv -[String.append].
  rewrite append_nil_r. reflexivity.
Qed.

Lemma get_wide_search_shared (joined : string) :
  I18n.get messages "notes.wide_search_shared"
           "Wide search match (amount shared with garages: {garages})"
           [("garages", joined)]
  = "Wide search match (amount shared with garages: " +:+ joined +:+ ")".
Proof.
  unfold I18n.get. rewrite wide_search_shared_default.
  cbv -[String.append]. reflexivity.
Qed.

(** With the built-in templates, the note of a selection for an amount in
    conflict lists the conflicting garages. *)
Lemma selection_note_lists_conflicts sw gr amount expected transactions used
    conflicts analysis t info :
  conflicts <> [] ->
  select_transaction sw gr messages amount expected transactions used
                     conflicts analysis = (Some t, info) ->
  contains (matched_notes messages info) (join_ids conflicts).
Proof.
  intros Hc. unfold select_transaction, _find_best_match, _find_fallback_match.
  rewrite get_amount_conflict, get_amount_shared, get_wide_search_shared.
  destruct conflicts as [| c0 cs]; [contradiction |].
  destruct (narrow_candidates _ _ _ _ _ _ _) as [| c [| c' rest]].
  - destruct (fallback_candidates _ _ _ _) as [| c [| c' rest]].
    + discriminate.
    + intros [= _ <-].
      rewrite matched_notes_nonempty by discriminate.
      apply contains_here.
    + intros [= _ <-].
      rewrite matched_notes_nonempty
        by (apply append_nonempty_r; discriminate).
      apply contains_append_r.
      apply (contains_here " (amount shared with garages: " _ ")").
  - intros [= _ <-].
    rewrite matched_notes_nonempty by discriminate.
    apply contains_suffix.
  - intros [= _ <-].
    rewrite matched_notes_nonempty
      by (do 2 (apply append_nonempty_r); discriminate).
    do 2 apply contains_append_r. apply contains_suffix.
Qed.

End DefaultTemplates.

(** C2 (amended). For an obligation whose amount is shared with another
    obligation of the input, the identifiers of all the obligations with
    that amount, its own and the other's among them, are what the searches
    receive as conflicting garages; when a transaction is matched to the
    obligation, its notes contain their comma-separated list (with the
    built-in note templates); when none is matched, its notes are the
    no-payment message alone. *)
Theorem conflict_note_when_matched
    (search_window_days grace_period_days : Z) (messages : gmap string string)
    (garages : list Garage.t) (transactions : list Transaction.obj)
    (analysis : date) (target : option date)
    (log : list (Payment.t * option Transaction.obj)) :
  builtin_templates messages ->
  match_trace search_window_days grace_period_days messages garages transactions
              analysis target = Ok log ->
  forall i j g g' p sel,
    i <> j -> garages !! i = Some g -> garages !! j = Some g' ->
    (Garage.monthly_rent g' == Garage.monthly_rent g)%Q ->
    log !! i = Some (p, sel) ->
    let ids := ids_sharing (Garage.monthly_rent g) garages in
    conflicts_get (_find_amount_conflicts garages) (Garage.monthly_rent g) = ids
    /\ In (Garage.id g) ids /\ In (Garage.id g') ids
    /\ match sel with
       | Some _ => contains (Payment.notes p) (join_ids ids)
       | None =>
           Payment.notes p
           = I18n.get messages "notes.no_payment" "No matching payment found" []
       end.
Proof.
  intros (Hshared & Hwide & _) Hrun i j g g' p sel Hij Hg Hg' Hrent Hp ids.
  assert (Hids : (2 <= length ids)%nat /\ In (Garage.id g) ids
                 /\ In (Garage.id g') ids).
  { unfold ids, ids_sharing. rewrite length_map.
    assert (Hfg : Qeq_bool (Garage.monthly_rent g) (Garage.monthly_rent g) = true)
      by apply Qeq_bool_refl.
    assert (Hfg' : Qeq_bool (Garage.monthly_rent g') (Garage.monthly_rent g) = true)
      by (apply Qeq_eq_bool; assumption).
    destruct (Nat.lt_trichotomy i j) as [Hlt | [Heq | Hlt]]; [| contradiction |].
    - destruct (filter_two
                  (fun x => Qeq_bool (Garage.monthly_rent x) (Garage.monthly_rent g))
                  garages i j g g' Hlt Hg Hg' Hfg Hfg') as (H2 & H3 & H4).
      split; [exact H2 |]. split; apply in_map; assumption.
    - destruct (filter_two
                  (fun x => Qeq_bool (Garage.monthly_rent x) (Garage.monthly_rent g))
                  garages j i g' g Hlt Hg' Hg Hfg' Hfg) as (H2 & H3 & H4).
      split; [exact H2 |]. split; apply in_map; assumption. }
  destruct Hids as (Hlen & Hin & Hin').
  assert (Hconf : conflicts_get (_find_amount_conflicts garages)
                                (Garage.monthly_rent g) = ids).
  { rewrite conflicting_garages_spec. fold ids.
    destruct (Nat.ltb_spec 1 (length ids)); [reflexivity | lia]. }
  split; [exact Hconf |]. split; [exact Hin |]. split; [exact Hin' |].
  apply match_trace_entries in Hrun as (tm & _ & _ & Hent).
  destruct (Hent i g Hg) as (entry & Hi & Hstep).
  rewrite Hp in Hi. injection Hi as <-.
  apply match_garage_inv in Hstep as (expected & _ & Hsel & Hpeq).
  rewrite Hconf in Hsel, Hpeq.
  destruct (select_transaction _ _ _ _ _ _ _ _ _) as [[t |] info] eqn:Hselect;
    simpl in Hsel; subst sel p; cbn [outcome_of Payment.notes].
  - eapply selection_note_lists_conflicts; try eassumption.
    intros E. rewrite E in Hlen. simpl in Hlen. lia.
  - reflexivity.
Qed.

Lemma conflict_note_when_matched_witness :
  exists p1 p2,
    match_payments 7 3 I18n.default_messages [garage_g1; garage_g2]
                   [tx 1 (mkdate 2025 1 15) (3500 # 1)] (mkdate 2025 1 20) None
    = Ok [p1; p2]
    /\ contains (Payment.notes p1) "G1, G2"
    /\ Payment.notes p2 = "No matching payment found".
Proof.
  do 2 eexists. split; [vm_compute; reflexivity |].
  pose proof (conflict_note_when_matched 7 3 I18n.default_messages
                [garage_g1; garage_g2] [tx 1 (mkdate 2025 1 15) (3500 # 1)]
                (mkdate 2025 1 20) None _
                ltac:(repeat split; vm_compute; reflexivity)
                ltac:(vm_compute; reflexivity)) as H.
  split.
  - exact (proj2 (proj2 (proj2
             (H 0%nat 1%nat garage_g1 garage_g2 _ _ ltac:(lia) eq_refl eq_refl
                ltac:(reflexivity) eq_refl)))).
  - exact (proj2 (proj2 (proj2
             (H 1%nat 0%nat garage_g2 garage_g1 _ _ ltac:(lia) eq_refl eq_refl
                ltac:(reflexivity) eq_refl)))).
Defined.

(** * Further properties of the code *)

(** ** [DateCalculator] *)

Lemma valid_first_of_month (y m : Z) : 1 <= m <= 12 -> valid_date (mkdate y m 1).
Proof.
  intros Hm. pose proof (monthrange_days_bounds y m Hm). unfold valid_date.
  simpl. lia.
Qed.

Lemma expected_date_valid (g : Garage.t) (tm : date) :
  Garage.valid g -> valid_date tm ->
  valid_date (mkdate (year tm) (month tm)
                     (Z.min (Garage.payment_day g)
                            (monthrange_days (year tm) (month tm)))).
Proof.
  intros Hg [Hm _]. apply garage_valid_inv in Hg as (_ & _ & Hd).
  pose proof (monthrange_days_bounds (year tm) _ Hm). unfold valid_date.
  simpl. lia.
Qed.



(** X2. In the month of its start date, the expected date of a garage whose
    payment day was taken from that start date is the start date itself. *)
Theorem expected_date_of_start_month (gid : string) (rent : Q) (start : date) :
  valid_date start ->
  DateCalculator.calculate_expected_date
    (Garage.mk gid rent start
               (DateCalculator.calculate_payment_day_from_start_date start))
    start
  = Ok start.
Proof.
  intros [Hm Hd]. unfold DateCalculator.calculate_expected_date,
    DateCalculator.calculate_payment_day_from_start_date.
  cbn [Garage.payment_day].
  replace (day start <=? monthrange_days (year start) (month start)) with true
    by (symmetry; apply Z.leb_le; lia).
  rewrite date_new_ok by assumption. destruct start; reflexivity.
Qed.

Lemma expected_date_of_start_month_witness :
  DateCalculator.calculate_expected_date
    (Garage.mk "29" (3500 # 1) (mkdate 2024 2 29)
               (DateCalculator.calculate_payment_day_from_start_date
                  (mkdate 2024 2 29)))
    (mkdate 2024 2 29)
  = Ok (mkdate 2024 2 29).
Proof.
  apply (expected_date_of_start_month "29" (3500 # 1) (mkdate 2024 2 29)).
  apply valid_dateb_true. reflexivity.
Defined.

(** X3. [is_payment_overdue] and [calculate_days_overdue] against the status
    of an unpaid obligation: for a grace period that is not negative, a
    payment is overdue exactly when [determine_status] answers OVERDUE; the
    days counted by [calculate_days_overdue] are never negative, are 0
    exactly when the payment is not overdue, and count from the end of the
    grace period, so that the offset of [determine_status] is that number
    plus the grace period. *)
Theorem overdue_agrees_with_status (expected current : date) (grace : Z) :
  0 <= grace ->
  let st := StatusDeterminer.determine_status grace expected current false None
                                              false in
  let days := DateCalculator.calculate_days_overdue expected current grace in
  (DateCalculator.is_payment_overdue expected current grace = true
   <-> fst st = OVERDUE)
  /\ 0 <= days
  /\ (days = 0
      <-> DateCalculator.is_payment_overdue expected current grace = false)
  /\ (fst st = OVERDUE -> snd st = days + grace).
Proof.
  intros Hg. cbv zeta.
  unfold StatusDeterminer.determine_status, DateCalculator.is_payment_overdue,
    DateCalculator.calculate_days_overdue, ltb, leb, plus_days, days_between.
  destruct (Z.ltb_spec (toordinal expected + grace) (toordinal current));
    destruct (Z.ltb_spec (toordinal current) (toordinal expected));
    destruct (Z.leb_spec (toordinal expected) (toordinal current));
    destruct (Z.leb_spec (toordinal current) (toordinal expected + grace));
    cbn [andb fst snd]; try lia;
    repeat split; intros; try discriminate; try reflexivity; try lia.
Qed.

Lemma overdue_agrees_with_status_witness :
  DateCalculator.is_payment_overdue (mkdate 2025 1 15) (mkdate 2025 1 19) 3 = true
  /\ DateCalculator.calculate_days_overdue (mkdate 2025 1 15) (mkdate 2025 1 19) 3
     = 1
  /\ StatusDeterminer.determine_status 3 (mkdate 2025 1 15) (mkdate 2025 1 19)
                                       false None false = (OVERDUE, 4).
Proof.
  destruct (overdue_agrees_with_status (mkdate 2025 1 15) (mkdate 2025 1 19) 3
              ltac:(lia)) as (H1 & _ & _ & H4).
  split; [apply H1; reflexivity |]. split; [reflexivity |].
  specialize (H4 eq_refl). vm_compute in H4 |- *. reflexivity.
Defined.

(** ** [StatusDeterminer] *)

(** X4. The status and the offset of [determine_status] go together, for all
    arguments: the offset is 0 with NOT_DUE and UNCLEAR, between 0 and the
    grace period with PENDING, above the grace period with OVERDUE, and with
    RECEIVED it is 0 when no payment date is given and otherwise the signed
    distance of the payment date, between -7 and the grace period.  With a
    payment the status is RECEIVED or UNCLEAR; without one, and without
    multiple payments, it is NOT_DUE, PENDING or OVERDUE. *)
Theorem status_offset_ranges (grace : Z) (expected analysis : date)
    (has_payment : bool) (actual : option date) (has_multiple : bool) :
  let st := StatusDeterminer.determine_status grace expected analysis
              has_payment actual has_multiple in
  (fst st = NOT_DUE \/ fst st = UNCLEAR -> snd st = 0)
  /\ (fst st = PENDING -> 0 <= snd st <= grace)
  /\ (fst st = OVERDUE -> grace < snd st /\ 0 <= snd st)
  /\ (fst st = RECEIVED ->
      match actual with
      | Some a => snd st = toordinal a - toordinal expected
                  /\ -7 <= snd st <= grace
      | None => snd st = 0
      end)
  /\ (has_payment = true -> fst st = RECEIVED \/ fst st = UNCLEAR)
  /\ (has_payment = false -> has_multiple = false ->
      fst st = NOT_DUE \/ fst st = PENDING \/ fst st = OVERDUE)
  /\ (has_multiple = true -> st = (UNCLEAR, 0)).
Proof.
  cbv zeta.
  unfold StatusDeterminer.determine_status, ltb, leb, plus_days, minus_days,
    days_between.
  destruct has_multiple, has_payment, actual as [a |]; cbn [fst snd];
    repeat match goal with
           | |- context [Z.leb ?x ?y] => destruct (Z.leb_spec x y)
           | |- context [Z.ltb ?x ?y] => destruct (Z.ltb_spec x y)
           end;
    cbn [andb fst snd];
    repeat split; intros; try discriminate; try reflexivity; try lia; auto;
    try (match goal with H : _ \/ _ |- _ => destruct H; discriminate end).
Qed.

(** X5. A candidate of the narrow search with a search window of at most 7
    days is a timely payment for [is_payment_timely], lies in the range of
    [DateUtils.is_date_in_range], and is rated by [determine_status] as the
    matcher rates it: RECEIVED, with the same offset. *)
Theorem narrow_candidate_is_timely
    (search_window_days grace_period_days : Z) (amount : Q) (expected : date)
    (transactions : list Transaction.obj) (used : gset nat) (analysis : date)
    (t : Transaction.obj) :
  search_window_days <= 7 ->
  In t (narrow_candidates search_window_days grace_period_days amount expected
                          transactions used analysis) ->
  StatusDeterminer.is_payment_timely grace_period_days expected (tx_date t) 7
  = true
  /\ DateUtils.is_date_in_range (tx_date t) expected 7 grace_period_days = true
  /\ StatusDeterminer.determine_status grace_period_days expected analysis true
       (Some (tx_date t)) false
     = (RECEIVED, StatusDeterminer.calculate_payment_delay expected (tx_date t)).
Proof.
  intros Hsw Hin. apply narrow_candidates_In in Hin as (_ & _ & _ & Hwin & _).
  unfold minus_days, plus_days in Hwin.
  assert (Ht : StatusDeterminer.is_payment_timely grace_period_days expected
                 (tx_date t) 7 = true).
  { unfold StatusDeterminer.is_payment_timely, minus_days, plus_days.
    apply andb_true_intro. split; apply Z.leb_le; lia. }
  split; [exact Ht |]. split; [exact Ht |].
  unfold StatusDeterminer.determine_status.
  unfold StatusDeterminer.is_payment_timely in Ht. rewrite Ht. reflexivity.
Qed.

Lemma narrow_candidate_is_timely_witness :
  StatusDeterminer.determine_status 3 (mkdate 2025 1 15) (mkdate 2025 1 20) true
    (Some (mkdate 2025 1 14)) false
  = (RECEIVED, -1).
Proof.
  apply (narrow_candidate_is_timely 7 3 (3500 # 1) (mkdate 2025 1 15)
           [tx 1 (mkdate 2025 1 10) (3500 # 1); tx 2 (mkdate 2025 1 14) (3500 # 1)]
           ∅ (mkdate 2025 1 20) (tx 2 (mkdate 2025 1 14) (3500 # 1))).
  - lia.
  - vm_compute. right. left. reflexivity.
Defined.

(** ** [PaymentMatcher]: what a run guarantees *)

Section RunEntries.
Variables search_window_days grace_period_days : Z.
Variable messages : gmap string string.
Variable garages : list Garage.t.
Variable transactions : list Transaction.obj.
Variable analysis : date.
Variable target : option date.

(** An entry of a run, unfolded: its garage, its expected date, the selection
    among the transactions not used before, and the payment built from it. *)
Lemma trace_entry_inv log i p sel :
  match_trace search_window_days grace_period_days messages garages transactions
              analysis target = Ok log ->
  log !! i = Some (p, sel) ->
  exists g tm expected,
    garages !! i = Some g
    /\ resolve_target_month analysis target = Ok tm
    /\ DateCalculator.calculate_expected_date g tm = Ok expected
    /\ sel = fst (select_transaction search_window_days grace_period_days
                    messages (Garage.monthly_rent g) expected transactions
                    (used_by ∅ (take i log))
                    (conflicts_get (_find_amount_conflicts garages)
                                   (Garage.monthly_rent g)) analysis)
    /\ p = outcome_of grace_period_days messages analysis g expected
             (select_transaction search_window_days grace_period_days
                messages (Garage.monthly_rent g) expected transactions
                (used_by ∅ (take i log))
                (conflicts_get (_find_amount_conflicts garages)
                               (Garage.monthly_rent g)) analysis).
Proof.
  intros Hrun Hi.
  apply match_trace_entries in Hrun as (tm & Hr & Hlen & Hent).
  assert (Hlt : (i < length garages)%nat)
    by (rewrite <- Hlen; eapply lookup_lt_Some; eassumption).
  apply lookup_lt_is_Some in Hlt as [g Hg].
  destruct (Hent i g Hg) as (entry & Hi' & Hstep).
  rewrite Hi in Hi'. injection Hi' as <-.
  apply match_garage_inv in Hstep as (expected & Hexp & Hsel & Hp).
  exists g, tm, expected. auto.
Qed.

(** The payments of [match_payments] are the first components of a run. *)
Lemma match_payments_entry payments p :
  match_payments search_window_days grace_period_days messages garages
                 transactions analysis target = Ok payments ->
  In p payments ->
  exists log i sel,
    match_trace search_window_days grace_period_days messages garages
                transactions analysis target = Ok log
    /\ payments = map fst log
    /\ log !! i = Some (p, sel).
Proof.
  unfold match_payments. intros H Hin.
  destruct (match_trace _ _ _ _ _ _ _) as [log | e]; [| discriminate].
  injection H as <-. apply in_map_iff in Hin as ([p' sel] & Hp & Hin).
  simpl in Hp. subst p'.
  apply list_elem_of_In, list_elem_of_lookup in Hin as [i Hi].
  exists log, i, sel. auto.
Qed.

Lemma used_before (log : list (Payment.t * option Transaction.obj)) i a :
  a ∈ used_by ∅ (take i log) ->
  exists j p t,
    (j < i)%nat /\ log !! j = Some (p, Some t) /\ Transaction.addr t = a.
Proof.
  intros H. apply used_by_elem in H as [H | (p & t & Hin & Ha)];
    [apply not_elem_of_empty in H; contradiction |].
  apply list_elem_of_In, list_elem_of_lookup in Hin as [j Hj].
  apply lookup_take_Some in Hj as [Hj Hlt]. eauto 7.
Qed.

End RunEntries.

Lemma unpaid_status_cases (grace : Z) (expected analysis : date) :
  let st := StatusDeterminer.determine_status grace expected analysis false None
                                              false in
  fst st = NOT_DUE \/ fst st = PENDING \/ fst st = OVERDUE.
Proof.
  cbv zeta. unfold StatusDeterminer.determine_status.
  destruct (ltb analysis expected); [left; reflexivity |].
  destruct (leb expected analysis && _); [right; left | right; right]; reflexivity.
Qed.

Lemma status_cases_overdue (grace : Z) (expected analysis : date) :
  let st := StatusDeterminer.determine_status grace expected analysis false None
                                              false in
  fst st = OVERDUE -> grace < snd st.
Proof.
  cbv zeta. unfold StatusDeterminer.determine_status, ltb, leb, plus_days,
    days_between.
  destruct (Z.ltb_spec (toordinal analysis) (toordinal expected));
    [discriminate |].
  destruct (Z.leb_spec (toordinal expected) (toordinal analysis));
    destruct (Z.leb_spec (toordinal analysis) (toordinal expected + grace));
    cbn [andb fst snd]; intros; try discriminate; lia.
Qed.

(** X6. A run never rates an obligation UNCLEAR.  A payment of the result
    is RECEIVED exactly when it has an actual date; without one its status
    and offset are those of [determine_status] without payment (NOT_DUE,
    PENDING or OVERDUE), and it is overdue only beyond the grace period. *)
Theorem run_statuses
    (search_window_days grace_period_days : Z) (messages : gmap string string)
    (garages : list Garage.t) (transactions : list Transaction.obj)
    (analysis : date) (target : option date) (payments : list Payment.t) :
  match_payments search_window_days grace_period_days messages garages
                 transactions analysis target = Ok payments ->
  forall p, In p payments ->
    Payment.status p <> UNCLEAR
    /\ (Payment.is_paid p = true <-> Payment.actual_date p <> None)
    /\ (Payment.actual_date p = None ->
        (Payment.status p, Payment.days_overdue p)
        = StatusDeterminer.determine_status grace_period_days
            (Payment.expected_date p) analysis false None false)
    /\ (Payment.is_overdue p = true ->
        Payment.actual_date p = None
        /\ grace_period_days < Payment.days_overdue p).
Proof.
  intros Hrun p Hin.
  destruct (match_payments_entry _ _ _ _ _ _ _ _ _ Hrun Hin)
    as (log & i & sel & Htrace & _ & Hi).
  destruct (trace_entry_inv _ _ _ _ _ _ _ _ _ _ _ Htrace Hi)
    as (g & tm & expected & _ & _ & _ & _ & ->).
  destruct (select_transaction _ _ _ _ _ _ _ _ _) as [[t |] info];
    cbn [outcome_of]; unfold Payment.is_paid, Payment.is_overdue;
    cbn [Payment.status Payment.actual_date Payment.days_overdue
         Payment.expected_date PaymentStatus_eqb].
  - repeat split; intros; try discriminate; try reflexivity.
  - pose proof (unpaid_status_cases grace_period_days expected analysis) as Hc.
    pose proof (status_cases_overdue grace_period_days expected analysis) as Ho.
    cbv zeta in Hc, Ho.
    destruct (StatusDeterminer.determine_status grace_period_days expected
                analysis false None false) as [st days].
    cbn [fst snd] in *.
    destruct Hc as [-> | [-> | ->]]; cbn [PaymentStatus_eqb];
      repeat split; intros; try discriminate; try reflexivity;
      try contradiction; auto.
Qed.

Lemma run_statuses_witness :
  exists p1 p2,
    match_payments 7 3 I18n.default_messages [garage_g1; garage_g2]
                   [tx 1 (mkdate 2025 1 15) (3500 # 1)] (mkdate 2025 1 20) None
    = Ok [p1; p2]
    /\ Payment.status p1 <> UNCLEAR
    /\ Payment.actual_date p2 = None
    /\ 3 < Payment.days_overdue p2.
Proof.
  do 2 eexists. split; [vm_compute; reflexivity |].
  pose proof (run_statuses 7 3 I18n.default_messages [garage_g1; garage_g2]
                [tx 1 (mkdate 2025 1 15) (3500 # 1)] (mkdate 2025 1 20) None _
                ltac:(vm_compute; reflexivity)) as H.
  split; [exact (proj1 (H _ (or_introl eq_refl))) |].
  exact (proj2 (proj2 (proj2 (H _ (or_intror (or_introl eq_refl))))) eq_refl).
Defined.

Lemma selection_is_candidate sw gr messages amount expected transactions used
    conflicts analysis t :
  fst (select_transaction sw gr messages amount expected transactions used
                          conflicts analysis) = Some t ->
  In t (fallback_candidates amount transactions used analysis)
  /\ (narrow_candidates sw gr amount expected transactions used analysis <> [] ->
      In t (narrow_candidates sw gr amount expected transactions used analysis)).
Proof.
  rewrite select_transaction_selected.
  destruct (narrow_candidates _ _ _ _ _ _ _) as [| c rest] eqn:Hn.
  - rewrite find_fallback_match_selected.
    destruct (fallback_candidates _ _ _ _) as [| c rest] eqn:Hf; [discriminate |].
    intros [= <-]. split; [apply min_by_In | intros H; contradiction].
  - intros [= <-].
    pose proof (min_by_In (fun t => Z.abs (days_between (tx_date t) expected))
                          rest c) as Hin.
    split; [| intros _; exact Hin].
    rewrite <- Hn in Hin. apply narrow_candidates_In in Hin.
    apply fallback_candidates_In. tauto.
Qed.

Lemma selection_none sw gr messages amount expected transactions used conflicts
    analysis :
  fst (select_transaction sw gr messages amount expected transactions used
                          conflicts analysis) = None ->
  fallback_candidates amount transactions used analysis = [].
Proof.
  rewrite select_transaction_selected.
  destruct (narrow_candidates _ _ _ _ _ _ _) as [| c rest]; [| discriminate].
  rewrite find_fallback_match_selected.
  destruct (fallback_candidates _ _ _ _); [reflexivity | discriminate].
Qed.

(** X7. The actual date of a payment of a run is the date of a transaction
    of the statement whose amount is within 0.01 of the payment's amount,
    and it is never after the analysis date. *)
Theorem actual_date_is_evidence
    (search_window_days grace_period_days : Z) (messages : gmap string string)
    (garages : list Garage.t) (transactions : list Transaction.obj)
    (analysis : date) (target : option date) (payments : list Payment.t) :
  match_payments search_window_days grace_period_days messages garages
                 transactions analysis target = Ok payments ->
  forall p d, In p payments -> Payment.actual_date p = Some d ->
    toordinal d <= toordinal analysis
    /\ exists t,
         In t transactions /\ tx_date t = d
         /\ (Qabs (tx_amount t - Payment.amount p) <= 1 # 100)%Q.
Proof.
  intros Hrun p d Hin Hd.
  destruct (match_payments_entry _ _ _ _ _ _ _ _ _ Hrun Hin)
    as (log & i & sel & Htrace & _ & Hi).
  destruct (trace_entry_inv _ _ _ _ _ _ _ _ _ _ _ Htrace Hi)
    as (g & tm & expected & _ & _ & _ & _ & ->).
  destruct (select_transaction _ _ _ _ _ _ _ _ _) as [[t |] info] eqn:Hsel;
    cbn [outcome_of Payment.actual_date Payment.amount] in *; [| discriminate].
  injection Hd as <-.
  assert (Hfst : fst (select_transaction search_window_days grace_period_days
                        messages (Garage.monthly_rent g) expected transactions
                        (used_by ∅ (take i log))
                        (conflicts_get (_find_amount_conflicts garages)
                                       (Garage.monthly_rent g)) analysis)
                 = Some t) by (rewrite Hsel; reflexivity).
  apply selection_is_candidate in Hfst as [Hc _].
  apply fallback_candidates_In in Hc as (H1 & _ & H3 & H4).
  split; [exact H4 |]. exists t. auto.
Qed.

Lemma actual_date_is_evidence_witness :
  exists t,
    In t statement_wide /\ tx_date t = mkdate 2024 11 1
    /\ (Qabs (tx_amount t - (3500 # 1)) <= 1 # 100)%Q.
Proof.
  assert (Hrun : exists p,
            match_payments 7 3 I18n.default_messages [garage_g1] statement_wide
                           (mkdate 2025 3 20) (Some (mkdate 2025 1 1)) = Ok [p]
            /\ Payment.actual_date p = Some (mkdate 2024 11 1)
            /\ Payment.amount p = (3500 # 1))
    by (eexists; split; [vm_compute; reflexivity | split; reflexivity]).
  destruct Hrun as (p & Hrun & Hd & Ha).
  destruct (actual_date_is_evidence 7 3 I18n.default_messages [garage_g1]
              statement_wide (mkdate 2025 3 20) (Some (mkdate 2025 1 1)) _ Hrun
              p _ (or_introl eq_refl) Hd) as (_ & t & H1 & H2 & H3).
  exists t. rewrite Ha in H3. auto.
Defined.

(** X8. An obligation is left without match only when nothing is left for
    it: every transaction of the statement with its amount (within 0.01)
    and a date up to the analysis date was selected for an earlier
    obligation of the run. *)
Theorem unmatched_has_no_candidate
    (search_window_days grace_period_days : Z) (messages : gmap string string)
    (garages : list Garage.t) (transactions : list Transaction.obj)
    (analysis : date) (target : option date)
    (log : list (Payment.t * option Transaction.obj)) :
  match_trace search_window_days grace_period_days messages garages transactions
              analysis target = Ok log ->
  forall i p t,
    log !! i = Some (p, None) ->
    In t transactions ->
    (Qabs (tx_amount t - Payment.amount p) <= 1 # 100)%Q ->
    toordinal (tx_date t) <= toordinal analysis ->
    exists j p' t',
      (j < i)%nat /\ log !! j = Some (p', Some t')
      /\ Transaction.addr t' = Transaction.addr t.
Proof.
  intros Hrun i p t Hi Hin Hamt Hdate.
  destruct (trace_entry_inv _ _ _ _ _ _ _ _ _ _ _ Hrun Hi)
    as (g & tm & expected & _ & _ & _ & Hsel & ->).
  symmetry in Hsel. apply selection_none in Hsel.
  assert (Hamt' : (Qabs (tx_amount t - Garage.monthly_rent g) <= 1 # 100)%Q).
  { destruct (select_transaction _ _ _ _ _ _ _ _ _) as [[t0 |] info];
      exact Hamt. }
  destruct (decide (Transaction.addr t ∈ used_by ∅ (take i log))) as [Hu | Hu].
  - apply used_before in Hu. exact Hu.
  - exfalso.
    assert (Hc : In t (fallback_candidates (Garage.monthly_rent g) transactions
                         (used_by ∅ (take i log)) analysis))
      by (apply fallback_candidates_In; auto).
    rewrite Hsel in Hc. destruct Hc.
Qed.

Lemma unmatched_has_no_candidate_witness :
  exists log j p' t',
    match_trace 7 3 I18n.default_messages [garage_g1; garage_g2]
                [tx 1 (mkdate 2025 1 15) (3500 # 1)] (mkdate 2025 1 20) None
    = Ok log
    /\ (j < 1)%nat /\ log !! j = Some (p', Some t')
    /\ Transaction.addr t' = 1%nat.
Proof.
  eexists.
  assert (Hrun : match_trace 7 3 I18n.default_messages [garage_g1; garage_g2]
                   [tx 1 (mkdate 2025 1 15) (3500 # 1)] (mkdate 2025 1 20) None
                 = Ok _) by (vm_compute; reflexivity).
  destruct (unmatched_has_no_candidate 7 3 I18n.default_messages
              [garage_g1; garage_g2] [tx 1 (mkdate 2025 1 15) (3500 # 1)]
              (mkdate 2025 1 20) None _ Hrun 1%nat
              _ (tx 1 (mkdate 2025 1 15) (3500 # 1)) eq_refl)
    as (j & p' & t' & H1 & H2 & H3).
  - left. reflexivity.
  - vm_compute. discriminate.
  - vm_compute. discriminate.
  - exists j, p', t'. auto.
Defined.

(** X9. The narrow search has priority: when the transaction matched to an
    obligation lies outside the window around the expected date, every
    transaction of the statement with the obligation's amount inside the
    window, and not after the analysis date, was selected for an earlier
    obligation. *)
Theorem outside_window_only_when_window_empty
    (search_window_days grace_period_days : Z) (messages : gmap string string)
    (garages : list Garage.t) (transactions : list Transaction.obj)
    (analysis : date) (target : option date)
    (log : list (Payment.t * option Transaction.obj)) :
  match_trace search_window_days grace_period_days messages garages transactions
              analysis target = Ok log ->
  forall i p t t',
    log !! i = Some (p, Some t) ->
    ~ (minus_days (Payment.expected_date p) search_window_days
       <= toordinal (tx_date t)
       <= plus_days (Payment.expected_date p) grace_period_days) ->
    In t' transactions ->
    (Qabs (tx_amount t' - Payment.amount p) <= 1 # 100)%Q ->
    minus_days (Payment.expected_date p) search_window_days
    <= toordinal (tx_date t')
    <= plus_days (Payment.expected_date p) grace_period_days ->
    toordinal (tx_date t') <= toordinal analysis ->
    exists j p' t'',
      (j < i)%nat /\ log !! j = Some (p', Some t'')
      /\ Transaction.addr t'' = Transaction.addr t'.
Proof.
  intros Hrun i p t t' Hi Hout Hin Hamt Hwin Hdate.
  destruct (trace_entry_inv _ _ _ _ _ _ _ _ _ _ _ Hrun Hi)
    as (g & tm & expected & _ & _ & _ & Hsel & ->).
  symmetry in Hsel. apply selection_is_candidate in Hsel as [_ Hnarrow].
  assert (Hexp : forall s,
            Payment.expected_date
              (outcome_of grace_period_days messages analysis g expected s)
            = expected /\
            Payment.amount
              (outcome_of grace_period_days messages analysis g expected s)
            = Garage.monthly_rent g)
    by (intros [[t0 |] info]; split; reflexivity).
  rewrite (proj1 (Hexp _)) in Hout, Hwin. rewrite (proj2 (Hexp _)) in Hamt.
  destruct (decide (Transaction.addr t' ∈ used_by ∅ (take i log))) as [Hu | Hu].
  - apply used_before in Hu. exact Hu.
  - exfalso.
    assert (Hc : In t' (narrow_candidates search_window_days grace_period_days
                          (Garage.monthly_rent g) expected transactions
                          (used_by ∅ (take i log)) analysis))
      by (apply narrow_candidates_In; auto).
    assert (Hne : narrow_candidates search_window_days grace_period_days
                    (Garage.monthly_rent g) expected transactions
                    (used_by ∅ (take i log)) analysis <> [])
      by (intros E; rewrite E in Hc; destruct Hc).
    apply Hnarrow, narrow_candidates_In in Hne. tauto.
Qed.

Lemma outside_window_only_when_window_empty_witness :
  exists log j p' t'',
    match_trace 7 3 I18n.default_messages [garage_g1; garage_g2]
                [tx 1 (mkdate 2025 1 15) (3500 # 1);
                 tx 2 (mkdate 2025 2 20) (3500 # 1)] (mkdate 2025 3 1)
                (Some (mkdate 2025 1 1))
    = Ok log
    /\ (j < 1)%nat /\ log !! j = Some (p', Some t'')
    /\ Transaction.addr t'' = 1%nat.
Proof.
  eexists.
  assert (Hrun : match_trace 7 3 I18n.default_messages [garage_g1; garage_g2]
                   [tx 1 (mkdate 2025 1 15) (3500 # 1);
                    tx 2 (mkdate 2025 2 20) (3500 # 1)] (mkdate 2025 3 1)
                   (Some (mkdate 2025 1 1))
                 = Ok _) by (vm_compute; reflexivity).
  destruct (outside_window_only_when_window_empty 7 3 I18n.default_messages
              [garage_g1; garage_g2]
              [tx 1 (mkdate 2025 1 15) (3500 # 1);
               tx 2 (mkdate 2025 2 20) (3500 # 1)] (mkdate 2025 3 1)
              (Some (mkdate 2025 1 1)) _ Hrun 1%nat _ _
              (tx 1 (mkdate 2025 1 15) (3500 # 1)) eq_refl)
    as (j & p' & t'' & H1 & H2 & H3).
  - vm_compute. intros [_ H]. apply H. reflexivity.
  - left. reflexivity.
  - vm_compute. discriminate.
  - vm_compute. split; discriminate.
  - vm_compute. discriminate.
  - exists j, p', t''. auto.
Defined.

(** *** Counting the matches *)

Lemma match_loop_selected_fresh sw gr messages transactions analysis tm conflicts
    garages used log u :
  match_loop sw gr messages transactions analysis tm conflicts garages used
  = Ok (log, u) ->
  List.NoDup (selected_addrs log)
  /\ forall a, In a (selected_addrs log) ->
       (a ∉ used) /\ In a (map Transaction.addr transactions).
Proof.
  revert used log u. induction garages as [| g rest IH]; intros used log u H.
  - injection H as <- <-. split; [constructor | intros a []].
  - rewrite match_loop_cons in H.
    destruct (match_garage _ _ _ _ _ _ _ _ _) as [[p sel] | e] eqn:Hstep;
      [| discriminate].
    destruct (match_loop _ _ _ _ _ _ _ rest _) as [[ps u'] | e] eqn:Hloop;
      [| discriminate].
    injection H as <- <-.
    destruct (IH _ _ _ Hloop) as [Hnd Hfresh].
    destruct sel as [t |]; cbn [selected_addrs flat_map snd app].
    + apply selected_is_candidate in Hstep as (Hin & Hu & _).
      split.
      * constructor; [| exact Hnd].
        intros Ha. apply Hfresh in Ha as [Ha _]. apply Ha. simpl.
        apply elem_of_union_l, elem_of_singleton. reflexivity.
      * intros a [<- | Ha]; [split; [exact Hu | apply in_map; exact Hin] |].
        apply Hfresh in Ha as [Ha Hm]. split; [| exact Hm].
        intros Hau. apply Ha. simpl. apply elem_of_union_r. exact Hau.
    + split; [exact Hnd |]. intros a Ha. apply Hfresh in Ha. exact Ha.
Qed.

Lemma count_received_selected sw gr messages transactions analysis tm conflicts
    garages used log u :
  match_loop sw gr messages transactions analysis tm conflicts garages used
  = Ok (log, u) ->
  Report.count_status RECEIVED (map fst log)
  = Z.of_nat (length (selected_addrs log)).
Proof.
  revert used log u. induction garages as [| g rest IH]; intros used log u H.
  - injection H as <- <-. reflexivity.
  - rewrite match_loop_cons in H.
    destruct (match_garage _ _ _ _ _ _ _ _ _) as [[p sel] | e] eqn:Hstep;
      [| discriminate].
    destruct (match_loop _ _ _ _ _ _ _ rest _) as [[ps u'] | e] eqn:Hloop;
      [| discriminate].
    injection H as <- <-.
    cbn [map fst]. rewrite count_status_cons, (IH _ _ _ Hloop).
    apply match_garage_inv in Hstep as (expected & _ & Hsel & ->).
    destruct (select_transaction _ _ _ _ _ _ _ _ _) as [[t |] info];
      simpl in Hsel; subst sel; cbn [outcome_of Payment.status selected_addrs
                                     flat_map snd app length PaymentStatus_eqb];
      fold (selected_addrs ps).
    + lia.
    + pose proof (unpaid_status_cases gr expected analysis) as Hc. cbv zeta in Hc.
      destruct Hc as [-> | [-> | ->]]; cbn [PaymentStatus_eqb]; lia.
Qed.

(** X10. A run matches every transaction object at most once, so the number
    of RECEIVED payments is at most the number of transactions of the
    statement (and at most the number of garages). *)
Theorem received_at_most_transactions
    (search_window_days grace_period_days : Z) (messages : gmap string string)
    (garages : list Garage.t) (transactions : list Transaction.obj)
    (analysis : date) (target : option date) (payments : list Payment.t) :
  match_payments search_window_days grace_period_days messages garages
                 transactions analysis target = Ok payments ->
  0 <= Report.count_status RECEIVED payments <= Z.of_nat (length transactions)
  /\ Report.count_status RECEIVED payments <= Z.of_nat (length garages).
Proof.
  unfold match_payments. intros H.
  destruct (match_trace _ _ _ _ _ _ _) as [log | e] eqn:Hrun; [| discriminate].
  injection H as <-.
  pose proof (match_trace_entries _ _ _ _ _ _ _ _ Hrun) as (_ & _ & Hlen & _).
  apply match_trace_inv in Hrun as (tm & _ & Hloop).
  pose proof (count_received_selected _ _ _ _ _ _ _ _ _ _ _ Hloop) as Hcount.
  pose proof (match_loop_selected_fresh _ _ _ _ _ _ _ _ _ _ _ Hloop)
    as [Hnd Hfresh].
  split; [split; [apply count_status_nonneg |] |].
  - rewrite Hcount. apply inj_le.
    rewrite <- (length_map Transaction.addr transactions).
    apply NoDup_incl_length; [exact Hnd |].
    intros a Ha. apply Hfresh in Ha. tauto.
  - pose proof (status_counts_total (map fst log)) as Ht.
    rewrite length_map, Hlen in Ht.
    pose proof (count_status_nonneg OVERDUE (map fst log)).
    pose proof (count_status_nonneg PENDING (map fst log)).
    pose proof (count_status_nonneg NOT_DUE (map fst log)).
    pose proof (count_status_nonneg UNCLEAR (map fst log)).
    lia.
Qed.

Lemma received_at_most_transactions_witness :
  exists payments,
    match_payments 7 3 I18n.default_messages [garage_g1; garage_g2]
                   statement_alias (mkdate 2025 1 20) None = Ok payments
    /\ Report.count_status RECEIVED payments <= 2.
Proof.
  eexists. split; [vm_compute; reflexivity |].
  exact (proj2 (received_at_most_transactions 7 3 I18n.default_messages
                  [garage_g1; garage_g2] statement_alias (mkdate 2025 1 20) None
                  _ ltac:(vm_compute; reflexivity))).
Defined.

(** ** [_find_amount_conflicts] *)

Lemma amap_get_none_iff (m : list (Q * list string)) (r : Q) :
  amap_get m r = None
  <-> forall k ids, In (k, ids) m -> Qeq_bool k r = false.
Proof.
  induction m as [| [k0 ids0] rest IH]; simpl.
  - split; [intros _ k ids [] | reflexivity].
  - destruct (Qeq_bool k0 r) eqn:E.
    + split; [discriminate |]. intros H.
      rewrite (H k0 ids0 (or_introl eq_refl)) in E. discriminate.
    + rewrite IH. split.
      * intros H k ids [[= <- <-] | Hin]; [exact E | eapply H; eassumption].
      * intros H k ids Hin. eapply H. right. eassumption.
Qed.

Lemma amap_get_In (m : list (Q * list string)) (k : Q) (ids : list string) :
  keys_distinct m -> In (k, ids) m -> amap_get m k = Some ids.
Proof.
  induction m as [| [k0 ids0] rest IH]; [intros _ [] |].
  intros [Hk Hrest] [[= -> ->] | Hin]; simpl.
  - rewrite Qeq_bool_refl. reflexivity.
  - rewrite Qeq_bool_comm.
    rewrite amap_get_none_iff in Hk. rewrite (Hk k ids Hin). auto.
Qed.

Lemma filter_keys_distinct (f : Q * list string -> bool) (m : list (Q * list string)) :
  keys_distinct m -> keys_distinct (List.filter f m).
Proof.
  induction m as [| [k0 ids0] rest IH]; [auto |].
  intros [Hk Hrest]. simpl. destruct (f (k0, ids0)); [| auto].
  split; [| auto]. rewrite amap_get_none_iff in Hk |- *.
  intros k ids Hin. apply filter_In in Hin as [Hin _]. eauto.
Qed.

(** X11. The conflicts of a list of garages: the keys are pairwise different
    amounts; every entry lists, in input order, the identifiers of all the
    garages with its amount, which are two or more; and looking up an amount
    gives that list when two or more garages have it, the empty list
    otherwise (amounts near but not equal to it do not count). *)
Theorem amount_conflicts_spec (garages : list Garage.t) :
  keys_distinct (_find_amount_conflicts garages)
  /\ (forall k ids,
        In (k, ids) (_find_amount_conflicts garages) ->
        ids = ids_sharing k garages /\ (2 <= length ids)%nat)
  /\ (forall rent,
        conflicts_get (_find_amount_conflicts garages) rent
        = if (2 <=? length (ids_sharing rent garages))%nat
          then ids_sharing rent garages else []).
Proof.
  assert (Hd : keys_distinct
                 (fold_left (fun m g => amount_map_add m (Garage.monthly_rent g)
                                                      (Garage.id g))
                            garages []))
    by (apply fold_amount_map_distinct; exact I).
  split; [apply filter_keys_distinct; exact Hd |]. split.
  - intros k ids Hin. unfold _find_amount_conflicts in Hin.
    apply filter_In in Hin as [Hin Hlen]. simpl in Hlen.
    apply Nat.ltb_lt in Hlen. split; [| lia].
    apply (amap_get_In _ _ _ Hd) in Hin. rewrite amap_get_fold in Hin.
    simpl in Hin. destruct (ids_sharing k garages); [discriminate |].
    injection Hin as <-. reflexivity.
  - intros rent. rewrite conflicting_garages_spec.
    destruct (Nat.ltb_spec 1 (length (ids_sharing rent garages)));
      destruct (Nat.leb_spec 2 (length (ids_sharing rent garages)));
      try reflexivity; lia.
Qed.

(** ** The order of the garages *)

Lemma select_transaction_conflicts sw gr messages amount expected transactions
    used conflicts conflicts' analysis :
  fst (select_transaction sw gr messages amount expected transactions used
                          conflicts analysis)
  = fst (select_transaction sw gr messages amount expected transactions used
                            conflicts' analysis).
Proof.
  rewrite !select_transaction_selected.
  destruct (narrow_candidates _ _ _ _ _ _ _); [| reflexivity].
  rewrite !find_fallback_match_selected. reflexivity.
Qed.

Lemma outcome_of_same gr messages analysis g expected sel info info' :
  same_outcome (outcome_of gr messages analysis g expected (sel, info))
               (outcome_of gr messages analysis g expected (sel, info')).
Proof. destruct sel; repeat split. Qed.

Lemma match_garage_eq sw gr messages transactions analysis tm conflicts used g :
  match_garage sw gr messages transactions analysis tm conflicts used g
  = match DateCalculator.calculate_expected_date g tm with
    | Ok expected =>
        let selection :=
          select_transaction sw gr messages (Garage.monthly_rent g) expected
            transactions used (conflicts_get conflicts (Garage.monthly_rent g))
            analysis in
        if String.eqb (Garage.id g) "" then
          Raise (ValueError "Garage ID cannot be empty")
        else if Qle_bool (Garage.monthly_rent g) 0 then
          Raise (ValueError "Payment amount must be positive")
        else Ok (outcome_of gr messages analysis g expected selection,
                 fst selection)
    | Raise e => Raise e
    end.
Proof.
  unfold match_garage.
  destruct (DateCalculator.calculate_expected_date g tm) as [expected | e];
    [| reflexivity].
  cbn [mbind result_bind]. cbv zeta.
  destruct (select_transaction _ _ _ _ _ _ _ _ _) as [[t |] info];
    unfold Payment.new at 1, Payment.post_init;
    cbn [Payment.garage_id Payment.amount];
    destruct (String.eqb (Garage.id g) "") eqn:Hid; try reflexivity;
    destruct (Qle_bool (Garage.monthly_rent g) 0) eqn:Hamt; try reflexivity;
    cbn [mbind result_bind];
    apply String.eqb_neq in Hid.
  - unfold _create_matched_payment.
    cbn [Payment.garage_id Payment.amount Payment.expected_date].
    rewrite (payment_new_ok _ _ _ _ _ _ _ Hid Hamt). reflexivity.
  - unfold _create_unmatched_payment, outcome_of.
    cbn [Payment.garage_id Payment.amount Payment.expected_date].
    destruct (StatusDeterminer.determine_status _ _ _ _ _ _) as [st days].
    rewrite (payment_new_ok _ _ _ _ _ _ _ Hid Hamt). reflexivity.
Qed.

Lemma match_loop_prefix sw gr messages transactions analysis tm conflicts
    conflicts' gs1 gs2 used log u :
  match_loop sw gr messages transactions analysis tm conflicts (gs1 ++ gs2) used
  = Ok (log, u) ->
  exists log1 u1,
    match_loop sw gr messages transactions analysis tm conflicts' gs1 used
    = Ok (log1, u1)
    /\ Forall2 (fun e e1 => snd e = snd e1 /\ same_outcome (fst e) (fst e1))
               (take (length gs1) log) log1.
Proof.
  revert used log u. induction gs1 as [| g rest IH]; intros used log u H.
  - exists [], used. split; [reflexivity |]. rewrite take_0. constructor.
  - cbn [app] in H. rewrite match_loop_cons in H. rewrite match_loop_cons.
    rewrite match_garage_eq in H |- *.
    destruct (DateCalculator.calculate_expected_date g tm) as [expected | e];
      [| discriminate].
    cbv zeta in H |- *.
    destruct (String.eqb (Garage.id g) ""); [discriminate |].
    destruct (Qle_bool (Garage.monthly_rent g) 0); [discriminate |].
    rewrite (select_transaction_conflicts sw gr messages (Garage.monthly_rent g)
               expected transactions used
               (conflicts_get conflicts' (Garage.monthly_rent g))
               (conflicts_get conflicts (Garage.monthly_rent g)) analysis).
    destruct (match_loop _ _ _ _ _ _ conflicts (rest ++ gs2) _)
      as [[ps u'] | e] eqn:Hloop; [| discriminate].
    injection H as <- <-.
    destruct (IH _ _ _ Hloop) as (log1 & u1 & Hl1 & Hall).
    rewrite Hl1. eexists _, u1. split; [reflexivity |].
    cbn [length take]. constructor; [| exact Hall].
    cbn [fst snd]. split; [reflexivity |].
    pose proof (select_transaction_conflicts sw gr messages
                  (Garage.monthly_rent g) expected transactions used
                  (conflicts_get conflicts (Garage.monthly_rent g))
                  (conflicts_get conflicts' (Garage.monthly_rent g)) analysis)
      as Hfst.
    destruct (select_transaction _ _ _ _ _ _ _ (conflicts_get conflicts _) _)
      as [sel info].
    destruct (select_transaction _ _ _ _ _ _ _ (conflicts_get conflicts' _) _)
      as [sel' info'].
    simpl in Hfst. subst sel'. apply outcome_of_same.
Qed.

(** X12. The matching is greedy in the order of the garages: when a run
    over a list of garages followed by further garages returns, the run
    over the first list alone returns too, and its payments are those of
    the longer run at the same positions, up to their notes (which name
    the garages in conflict). *)
Theorem earlier_outcomes_ignore_later_garages
    (search_window_days grace_period_days : Z) (messages : gmap string string)
    (garages later : list Garage.t) (transactions : list Transaction.obj)
    (analysis : date) (target : option date) (payments : list Payment.t) :
  match_payments search_window_days grace_period_days messages
                 (garages ++ later) transactions analysis target = Ok payments ->
  exists payments1,
    match_payments search_window_days grace_period_days messages garages
                   transactions analysis target = Ok payments1
    /\ Forall2 same_outcome (take (length garages) payments) payments1.
Proof.
  unfold match_payments. intros H.
  destruct (match_trace _ _ _ (garages ++ later) _ _ _) as [log | e] eqn:Hrun;
    [| discriminate].
  injection H as <-.
  apply match_trace_inv in Hrun as (tm & Hr & Hloop).
  destruct (match_loop_prefix _ _ _ _ _ _ _ (_find_amount_conflicts garages)
              _ _ _ _ _ Hloop) as (log1 & u1 & Hl1 & Hall).
  exists (map fst log1). unfold match_trace. rewrite Hr.
  cbn [mbind result_bind]. rewrite Hl1. split; [reflexivity |].
  change (map fst log) with (fst <$> log).
  change (map fst log1) with (fst <$> log1).
  rewrite <- fmap_take. apply Forall2_fmap.
  eapply Forall2_impl; [exact Hall |]. intros e e1 [_ Hs]. exact Hs.
Qed.

Lemma earlier_outcomes_ignore_later_garages_witness :
  exists p1 p2 q1,
    match_payments 7 3 I18n.default_messages ([garage_g1] ++ [garage_g2])
                   statement_twins (mkdate 2025 1 20) None = Ok [p1; p2]
    /\ match_payments 7 3 I18n.default_messages [garage_g1] statement_twins
                      (mkdate 2025 1 20) None = Ok [q1]
    /\ same_outcome p1 q1
    /\ Payment.notes p1 <> Payment.notes q1.
Proof.
  do 3 eexists.
  assert (Hrun : match_payments 7 3 I18n.default_messages
                   ([garage_g1] ++ [garage_g2]) statement_twins
                   (mkdate 2025 1 20) None = Ok _) by (vm_compute; reflexivity).
  destruct (earlier_outcomes_ignore_later_garages 7 3 I18n.default_messages
              [garage_g1] [garage_g2] statement_twins (mkdate 2025 1 20) None _
              Hrun) as (payments1 & H1 & Hall).
  split; [exact Hrun |].
  assert (Hq : match_payments 7 3 I18n.default_messages [garage_g1]
                 statement_twins (mkdate 2025 1 20) None = Ok _)
    by (vm_compute; reflexivity).
  split; [exact Hq |].
  rewrite Hq in H1. injection H1 as <-.
  split; [| vm_compute; discriminate].
  cbn [length take] in Hall. inversion Hall. assumption.
Defined.

(** ** [PaymentReport] *)

Lemma count_status_length st payments :
  Report.count_status st payments
  = Z.of_nat (length (List.filter
                        (fun p => PaymentStatus_eqb (Payment.status p) st)
                        payments)).
Proof.
  induction payments as [| p ps IH]; [reflexivity |].
  rewrite count_status_cons, IH. simpl.
  destruct (PaymentStatus_eqb (Payment.status p) st); simpl length; lia.
Qed.

(** X13. A report is created exactly for a non-empty list of payments and
    two non-empty file names; the missing payments are reported before the
    missing file names.  The report then holds the payments given, and its
    summary agrees with its lists: [total_garages] is the number of its
    payments, [get_overdue_payments] and [get_pending_payments] have
    [overdue_count] and [pending_count] elements, all of them payments of
    the report with that status. *)
Theorem created_report_consistent (today : date) (now : Z)
    (garage_file statement_file : string) (payments : list Payment.t)
    (analysis : option date) (notes : option (list string)) :
  let created :=
    Report.create today now garage_file statement_file payments analysis notes in
  (payments = [] ->
   created = Raise (ValueError "Report must contain at least one payment"))
  /\ (payments <> [] -> garage_file = "" \/ statement_file = "" ->
      created = Raise (ValueError "Source files must be specified"))
  /\ (payments <> [] -> garage_file <> "" -> statement_file <> "" ->
      exists r, created = Ok r)
  /\ (forall r, created = Ok r ->
      Report.payments r = payments
      /\ Report.analysis_date r = default today analysis
      /\ Report.total_garages (Report.summary r)
         = Z.of_nat (length (Report.payments r))
      /\ Z.of_nat (length (Report.get_overdue_payments r))
         = Report.overdue_count (Report.summary r)
      /\ Z.of_nat (length (Report.get_pending_payments r))
         = Report.pending_count (Report.summary r)
      /\ (forall p, In p (Report.get_overdue_payments r)
            <-> In p (Report.payments r) /\ Payment.status p = OVERDUE)
      /\ (forall p, In p (Report.get_pending_payments r)
            <-> In p (Report.payments r) /\ Payment.status p = PENDING)).
Proof.
  cbv zeta. unfold Report.create, Report.new, Report.post_init.
  cbn [Report.payments Report.garage_file Report.statement_file].
  split; [intros ->; reflexivity |].
  split.
  { intros Hne Hfile. destruct payments as [| p ps]; [contradiction |].
    destruct Hfile as [-> | ->]; [reflexivity |].
    rewrite orb_true_r. reflexivity. }
  split.
  { intros Hne Hg Hs. destruct payments as [| p ps]; [contradiction |].
    apply String.eqb_neq in Hg, Hs. rewrite Hg, Hs. eexists. reflexivity. }
  intros r Hr. destruct payments as [| p0 ps]; [discriminate |].
  destruct (String.eqb garage_file "" || String.eqb statement_file "");
    [discriminate |].
  injection Hr as <-.
  unfold Report.get_overdue_payments, Report.get_pending_payments.
  cbn [Report.payments Report.summary Report.analysis_date
       Report._calculate_summary Report.total_garages Report.overdue_count
       Report.pending_count].
  rewrite !count_status_length.
  do 5 (split; [reflexivity |]).
  split; intros p; rewrite filter_In;
    (split; [intros [Hin Hst]; split; [exact Hin |];
             destruct (Payment.status p); try discriminate; reflexivity
            | intros [Hin ->]; auto]).
Qed.

Lemma created_report_consistent_witness :
  Report.create (mkdate 2025 1 20) 0 "garages.xlsx" ""
                [payment_of "1" (3500 # 1) OVERDUE] None None
  = Raise (ValueError "Source files must be specified")
  /\ exists r,
       Report.create (mkdate 2025 1 20) 0 "garages.xlsx" "statement.xlsx"
                     [payment_of "1" (3500 # 1) OVERDUE;
                      payment_of "2" (2800 # 1) RECEIVED] None None = Ok r
       /\ Z.of_nat (length (Report.get_overdue_payments r))
          = Report.overdue_count (Report.summary r).
Proof.
  split.
  - apply (created_report_consistent (mkdate 2025 1 20) 0 "garages.xlsx" ""
             [payment_of "1" (3500 # 1) OVERDUE] None None).
    + discriminate.
    + right. reflexivity.
  - destruct (created_report_consistent (mkdate 2025 1 20) 0 "garages.xlsx"
                "statement.xlsx"
                [payment_of "1" (3500 # 1) OVERDUE;
                 payment_of "2" (2800 # 1) RECEIVED] None None)
      as (_ & _ & Hex & Hall).
    destruct Hex as [r Hr]; [discriminate | discriminate | discriminate |].
    exists r. split; [exact Hr |].
    exact (proj1 (proj2 (proj2 (proj2 (Hall r Hr))))).
Defined.

Lemma fold_right_Qplus_nonneg (l : list Q) :
  (forall x, In x l -> 0 <= x)%Q -> (0 <= fold_right Qplus 0 l)%Q.
Proof.
  induction l as [| x l IH]; intros H; simpl.
  - apply Qle_refl.
  - replace 0%Q with (0 + 0)%Q by reflexivity.
    apply Qplus_le_compat; [apply H; left; reflexivity |].
    apply IH. intros y Hy. apply H. right. exact Hy.
Qed.

Lemma received_sum_le_total (payments : list Payment.t) :
  (forall p, In p payments -> (0 <= Payment.amount p)%Q) ->
  (fold_right Qplus 0
     (map Payment.amount
          (List.filter (fun p => PaymentStatus_eqb (Payment.status p) RECEIVED)
                       payments))
   <= fold_right Qplus 0 (map Payment.amount payments))%Q.
Proof.
  induction payments as [| p ps IH]; intros H; simpl.
  - apply Qle_refl.
  - assert (IH' := IH (fun q Hq => H q (or_intror Hq))).
    assert (Hp := H p (or_introl eq_refl)).
    destruct (PaymentStatus_eqb (Payment.status p) RECEIVED); simpl.
    + apply Qplus_le_compat; [apply Qle_refl | exact IH'].
    + rewrite <- (Qplus_0_l (fold_right _ _ (map _ (List.filter _ ps)))).
      apply Qplus_le_compat; assumption.
Qed.

(** X14. For payments as their constructor admits them (positive amounts),
    the summary's received total lies between 0 and its expected total, the
    received count between 0 and [total_garages], and the collection rate
    between 0 and 100. *)
Theorem summary_bounds (payments : list Payment.t) :
  Forall (fun p => Payment.post_init p = Ok p) payments ->
  let s := Report._calculate_summary payments in
  (0 <= Report.total_received s)%Q
  /\ (Report.total_received s <= Report.total_expected s)%Q
  /\ 0 <= Report.received_count s <= Report.total_garages s
  /\ (0 <= Report.collection_rate s)%Q
  /\ (Report.collection_rate s <= 100)%Q.
Proof.
  intros Hvalid s.
  assert (Hpos : forall p, In p payments -> (0 <= Payment.amount p)%Q).
  { intros p Hin. rewrite Forall_forall in Hvalid.
    apply list_elem_of_In in Hin. specialize (Hvalid p Hin).
    unfold Payment.post_init in Hvalid.
    destruct (String.eqb (Payment.garage_id p) ""); [discriminate |].
    destruct (Qle_bool (Payment.amount p) 0) eqn:E; [discriminate |].
    destruct (Qlt_le_dec 0 (Payment.amount p)) as [Hlt | Hle].
    - apply Qlt_le_weak. exact Hlt.
    - apply Qle_bool_iff in Hle. congruence. }
  assert (Hcount : 0 <= Report.received_count s <= Report.total_garages s).
  { unfold s. cbn [Report._calculate_summary Report.received_count
                   Report.total_garages].
    pose proof (status_counts_total payments).
    pose proof (count_status_nonneg RECEIVED payments).
    pose proof (count_status_nonneg OVERDUE payments).
    pose proof (count_status_nonneg PENDING payments).
    pose proof (count_status_nonneg NOT_DUE payments).
    pose proof (count_status_nonneg UNCLEAR payments). lia. }
  split; [| split; [| split; [exact Hcount |]]].
  - unfold s. cbn [Report._calculate_summary Report.total_received].
    rewrite sum_Q_fold_right. apply fold_right_Qplus_nonneg.
    intros x Hx. apply in_map_iff in Hx as (p & <- & Hp).
    apply filter_In in Hp as [Hp _]. apply Hpos. exact Hp.
  - unfold s. cbn [Report._calculate_summary Report.total_received
                   Report.total_expected].
    rewrite !sum_Q_fold_right. apply received_sum_le_total. exact Hpos.
  - unfold Report.collection_rate.
    destruct (Z.eqb_spec (Report.total_garages s) 0) as [E | E].
    + split; [apply Qle_refl | discriminate].
    + assert (Htg : (0 < inject_Z (Report.total_garages s))%Q).
      { rewrite <- (Zlt_Qlt 0). lia. }
      split.
      * apply Qmult_le_0_compat; [| discriminate].
        apply Qle_shift_div_l; [exact Htg |]. rewrite Qmult_0_l.
        rewrite <- (Zle_Qle 0). lia.
      * rewrite <- (Qmult_1_l 100) at 2.
        apply Qmult_le_compat_r; [| discriminate].
        apply Qle_shift_div_r; [exact Htg |]. rewrite Qmult_1_l.
        rewrite <- Zle_Qle. lia.
Qed.

Lemma summary_bounds_witness :
  (Report.total_received
     (Report._calculate_summary
        [payment_of "1" (3500 # 1) RECEIVED; payment_of "2" (2800 # 1) OVERDUE])
   <= Report.total_expected
        (Report._calculate_summary
           [payment_of "1" (3500 # 1) RECEIVED; payment_of "2" (2800 # 1) OVERDUE]))%Q.
Proof.
  apply (summary_bounds
           [payment_of "1" (3500 # 1) RECEIVED; payment_of "2" (2800 # 1) OVERDUE]).
  repeat constructor.
Defined.

(** ** [PaymentPeriod] *)

(** X15. A payment period is accepted exactly when its start date is not
    after its end date.  An accepted period lasts at least one day, contains
    its two end points, and contains a date exactly when the date is less
    than [duration_days] days after the start date.  Its target month is the
    first day of the month of the start date: a date not after the start
    date, which the period contains only when it starts on a first of the
    month. *)
Theorem payment_period_properties (p : PaymentPeriod.t) :
  valid_date (PaymentPeriod.start_date p) ->
  (PaymentPeriod.valid p
   <-> toordinal (PaymentPeriod.start_date p)
       <= toordinal (PaymentPeriod.end_date p))
  /\ (PaymentPeriod.valid p ->
      1 <= PaymentPeriod.duration_days p
      /\ PaymentPeriod.contains_date p (PaymentPeriod.start_date p) = true
      /\ PaymentPeriod.contains_date p (PaymentPeriod.end_date p) = true)
  /\ (forall d,
        PaymentPeriod.contains_date p d = true
        <-> 0 <= days_between d (PaymentPeriod.start_date p)
            < PaymentPeriod.duration_days p)
  /\ exists tm,
       PaymentPeriod.target_month p = Ok tm
       /\ valid_date tm
       /\ tm = mkdate (year (PaymentPeriod.start_date p))
                      (month (PaymentPeriod.start_date p)) 1
       /\ toordinal tm <= toordinal (PaymentPeriod.start_date p)
       /\ (PaymentPeriod.valid p ->
           (PaymentPeriod.contains_date p tm = true
            <-> day (PaymentPeriod.start_date p) = 1)).
Proof.
  intros [Hm Hd].
  assert (Hvalid : PaymentPeriod.valid p
                   <-> toordinal (PaymentPeriod.start_date p)
                       <= toordinal (PaymentPeriod.end_date p)).
  { unfold PaymentPeriod.valid, PaymentPeriod.post_init, ltb.
    destruct (Z.ltb_spec (toordinal (PaymentPeriod.end_date p))
                         (toordinal (PaymentPeriod.start_date p))).
    - split; [discriminate | lia].
    - split; [lia | reflexivity]. }
  split; [exact Hvalid |].
  unfold PaymentPeriod.duration_days, PaymentPeriod.contains_date,
    PaymentPeriod.target_month, leb, days_between.
  split.
  { intros Hv. apply Hvalid in Hv. split; [lia |].
    split; apply andb_true_intro; split; apply Z.leb_le; lia. }
  split.
  { intros d. rewrite andb_true_iff, !Z.leb_le. lia. }
  pose proof (monthrange_days_bounds (year (PaymentPeriod.start_date p)) _ Hm).
  exists (mkdate (year (PaymentPeriod.start_date p))
                 (month (PaymentPeriod.start_date p)) 1).
  split; [apply date_new_ok; lia |].
  split; [apply valid_first_of_month; exact Hm |].
  split; [reflexivity |].
  assert (Hord : toordinal (mkdate (year (PaymentPeriod.start_date p))
                                   (month (PaymentPeriod.start_date p)) 1)
                 = toordinal (PaymentPeriod.start_date p)
                   - day (PaymentPeriod.start_date p) + 1).
  { unfold toordinal. cbn [year month day]. lia. }
  split; [lia |].
  intros Hv. apply Hvalid in Hv. rewrite andb_true_iff, !Z.leb_le. lia.
Qed.

Lemma payment_period_properties_witness :
  PaymentPeriod.duration_days period_january = 31
  /\ PaymentPeriod.target_month period_january = Ok (mkdate 2025 1 1)
  /\ PaymentPeriod.post_init
       (PaymentPeriod.mk (mkdate 2025 2 1) (mkdate 2025 1 31) "")
     = Raise (ValueError
                "Start date 2025-02-01 cannot be after end date 2025-01-31").
Proof.
  destruct (payment_period_properties period_january
              ltac:(apply valid_dateb_true; reflexivity))
    as (_ & _ & _ & tm & Htm & _ & -> & _).
  split; [reflexivity |]. split; [exact Htm | reflexivity].
Defined.

(** ** [DateUtils] *)

(** X16. The two computations of the expected date agree: for a target
    month, [DateUtils.calculate_expected_payment_date] from a base date
    returns (or raises) what [DateCalculator.calculate_expected_date]
    returns for a garage whose payment day is the day of the base date. *)
Theorem expected_date_implementations_agree (g : Garage.t)
    (base_date target_month : date) :
  valid_date target_month ->
  Garage.payment_day g = day base_date ->
  DateUtils.calculate_expected_payment_date base_date target_month
  = DateCalculator.calculate_expected_date g target_month.
Proof.
  intros [Hm _] Hday.
  unfold DateUtils.calculate_expected_payment_date, DateUtils.adjust_payment_day,
    DateUtils.get_last_day_of_month, monthrange_checked,
    DateCalculator.calculate_expected_date.
  replace ((1 <=? month target_month) && (month target_month <=? 12)) with true
    by (symmetry; apply andb_true_intro; split; apply Z.leb_le; lia).
  cbn [mbind result_bind mret result_ret]. rewrite Hday.
  destruct (Z.leb_spec (day base_date)
                       (monthrange_days (year target_month) (month target_month))).
  - rewrite Z.min_l by lia. reflexivity.
  - rewrite Z.min_r by lia. reflexivity.
Qed.

Lemma expected_date_implementations_agree_witness :
  DateUtils.calculate_expected_payment_date (mkdate 2025 1 31) (mkdate 2025 4 1)
  = Ok (mkdate 2025 4 30).
Proof.
  rewrite (expected_date_implementations_agree garage_day31 (mkdate 2025 1 31)
             (mkdate 2025 4 1)
             ltac:(apply valid_dateb_true; reflexivity) eq_refl).
  vm_compute. reflexivity.
Defined.

(** X17. With fuel for two skipped days, [get_next_business_day] returns a
    day that is not on a weekend, one to three days after the start date,
    and every day between the two is on a weekend. *)
Theorem next_business_day_spec (fuel : nat) (start : date) :
  (2 <= fuel)%nat ->
  exists next_day,
    DateUtils.get_next_business_day fuel start = Some next_day
    /\ toordinal start < next_day <= toordinal start + 3
    /\ DateUtils.is_weekend_ordinal next_day = false
    /\ forall o, toordinal start < o < next_day ->
         DateUtils.is_weekend_ordinal o = true.
Proof.
  intros Hfuel. destruct fuel as [| [| fuel]]; try lia.
  unfold DateUtils.get_next_business_day, plus_days.
  set (s := toordinal start). cbn [DateUtils.skip_weekend].
  unfold DateUtils.is_weekend_ordinal, weekday_of_ordinal.
  destruct (Z.leb_spec 5 ((s + 1 + 6) mod 7)) as [H1 | H1].
  - destruct (Z.leb_spec 5 ((s + 1 + 1 + 6) mod 7)) as [H2 | H2].
    + assert (H3 : (s + 1 + 1 + 1 + 6) mod 7 < 5)
        by (Z.div_mod_to_equations; lia).
      exists (s + 1 + 1 + 1).
      destruct fuel;
        (cbn [DateUtils.skip_weekend];
         unfold DateUtils.is_weekend_ordinal, weekday_of_ordinal;
         destruct (Z.leb_spec 5 ((s + 1 + 1 + 1 + 6) mod 7)); [lia |];
         split; [reflexivity |]; split; [lia |]; split; [reflexivity |];
         intros o Ho; apply Z.leb_le;
         assert (Hc : o = s + 1 \/ o = s + 1 + 1) by lia;
         destruct Hc as [-> | ->]; assumption).
    + exists (s + 1 + 1). split; [reflexivity |]. split; [lia |].
      split; [apply Z.leb_gt; exact H2 |].
      intros o Ho. apply Z.leb_le. replace o with (s + 1) by lia. exact H1.
  - exists (s + 1). split; [reflexivity |]. split; [lia |].
    split; [apply Z.leb_gt; exact H1 |]. intros o Ho. lia.
Qed.

Lemma next_business_day_spec_witness :
  DateUtils.get_next_business_day 2 (mkdate 2025 1 17)
  = Some (toordinal (mkdate 2025 1 20))
  /\ DateUtils.is_weekend (mkdate 2025 1 18) = true
  /\ weekday (mkdate 2025 1 20) = 0.
Proof.
  destruct (next_business_day_spec 2 (mkdate 2025 1 17) ltac:(lia))
    as (next_day & Hn & _).
  split; [| split; reflexivity].
  rewrite Hn. vm_compute in Hn. exact (eq_sym Hn).
Defined.

(** ** [LocalizationManager.get] *)

Lemma format_brace_free (kwargs : list (string * string)) (s : string) :
  brace_free s = true -> I18n.format_aux kwargs None s = Some s.
Proof.
  induction s as [| c r IH]; [reflexivity |].
  cbn [brace_free I18n.format_aux]. intros H.
  apply andb_prop in H as [H Hr]. apply andb_prop in H as [Ho Hc].
  apply negb_true_iff in Ho, Hc. rewrite Ho, Hc, (IH Hr). reflexivity.
Qed.

(** X18. A message without braces comes out of [get] as it is, whatever
    parameters are passed: the stored message of the key when there is one,
    the default otherwise, and the key itself when the default is empty. *)
Theorem get_plain_message (messages : gmap string string) (key default : string)
    (kwargs : list (string * string)) :
  (forall m, messages !! key = Some m -> brace_free m = true ->
             I18n.get messages key default kwargs = m)
  /\ (messages !! key = None -> default <> "" -> brace_free default = true ->
      I18n.get messages key default kwargs = default)
  /\ (messages !! key = None -> brace_free key = true ->
      I18n.get messages key "" kwargs = key).
Proof.
  unfold I18n.get, I18n.format. repeat split.
  - intros m -> Hm. rewrite (format_brace_free kwargs m Hm).
    destruct kwargs; reflexivity.
  - intros -> Hne Hd. apply String.eqb_neq in Hne. rewrite Hne.
    rewrite (format_brace_free kwargs default Hd). destruct kwargs; reflexivity.
  - intros -> Hk. cbn [String.eqb]. rewrite (format_brace_free kwargs key Hk).
    destruct kwargs; reflexivity.
Qed.

(** ** [ProcessPaymentsUseCase] *)

Lemma filter_first_two {A : Type} (f : A -> bool) (l : list A) (a b : A)
    (rest : list A) :
  List.filter f l = a :: b :: rest ->
  exists i j, (i < j)%nat /\ l !! i = Some a /\ l !! j = Some b.
Proof.
  induction l as [| x l IH]; [discriminate |].
  simpl. destruct (f x).
  - intros [= -> Hl].
    assert (Hb : In b (List.filter f l)) by (rewrite Hl; left; reflexivity).
    apply filter_In in Hb as [Hb _].
    apply list_elem_of_In, list_elem_of_lookup in Hb as [j Hj].
    exists 0%nat, (S j). split; [lia |]. split; [reflexivity | exact Hj].
  - intros H. destruct (IH H) as (i & j & Hij & Hi & Hj).
    exists (S i), (S j). split; [lia |]. split; assumption.
Qed.

Section UseCase.
Variables search_window_days grace_period_days : Z.
Variable messages : gmap string string.
Variable str_decimal : Q -> string.
Variable today : date.
Variable now : Z.

Let validate := ProcessPayments._validate_data_integrity str_decimal.

Lemma validate_length (garages : list Garage.t) :
  length (validate garages)
  = (length (_find_amount_conflicts garages)
     + if existsb (fun g => (28 <? Garage.payment_day g)%Z) garages
       then 1 else 0)%nat.
Proof.
  unfold validate, ProcessPayments._validate_data_integrity, _find_amount_conflicts.
  cbv zeta.
  assert (He : existsb (fun g => 28 <? Garage.payment_day g) garages
               = match List.filter (fun g => 28 <? Garage.payment_day g) garages with
                 | [] => false
                 | _ => true
                 end).
  { induction garages as [| g rest IH]; [reflexivity |]. simpl.
    destruct (28 <? Garage.payment_day g); [reflexivity | exact IH]. }
  rewrite He.
  destruct (List.filter (fun g => 28 <? Garage.payment_day g) garages).
  - rewrite length_map. lia.
  - rewrite length_app, length_map. reflexivity.
Qed.

Lemma no_conflicts_iff (garages : list Garage.t) :
  _find_amount_conflicts garages = []
  <-> forall i j g g',
        garages !! i = Some g -> garages !! j = Some g' ->
        (Garage.monthly_rent g == Garage.monthly_rent g')%Q -> i = j.
Proof.
  split.
  - intros Hc i j g g' Hg Hg' Hrent.
    destruct (Nat.eq_dec i j) as [| Hne]; [assumption | exfalso].
    assert (Hlen : (2 <= length (ids_sharing (Garage.monthly_rent g') garages))%nat).
    { unfold ids_sharing. rewrite length_map.
      assert (Hf : Qeq_bool (Garage.monthly_rent g) (Garage.monthly_rent g') = true)
        by (apply Qeq_eq_bool; exact Hrent).
      assert (Hf' : Qeq_bool (Garage.monthly_rent g') (Garage.monthly_rent g') = true)
        by apply Qeq_bool_refl.
      destruct (Nat.lt_trichotomy i j) as [Hlt | [Heq | Hlt]]; [| contradiction |].
      - exact (proj1 (filter_two _ garages i j g g' Hlt Hg Hg' Hf Hf')).
      - exact (proj1 (filter_two _ garages j i g' g Hlt Hg' Hg Hf' Hf)). }
    pose proof (conflicting_garages_spec garages (Garage.monthly_rent g')) as Hs.
    rewrite Hc in Hs. simpl in Hs.
    destruct (Nat.ltb_spec 1 (length (ids_sharing (Garage.monthly_rent g') garages)));
      [| lia].
    rewrite <- Hs in Hlen. simpl in Hlen. lia.
  - intros Hrent.
    destruct (_find_amount_conflicts garages) as [| [k ids] rest] eqn:Hc;
      [reflexivity | exfalso].
    assert (Hin : In (k, ids) (_find_amount_conflicts garages))
      by (rewrite Hc; left; reflexivity).
    unfold _find_amount_conflicts in Hin. apply filter_In in Hin as [Hin Hlen].
    simpl in Hlen. apply Nat.ltb_lt in Hlen.
    apply amap_get_In in Hin; [| apply fold_amount_map_distinct; exact I].
    rewrite amap_get_fold in Hin. simpl in Hin.
    destruct (ids_sharing k garages) as [| x xs] eqn:Hids; [discriminate |].
    injection Hin as <-. unfold ids_sharing in Hids.
    destruct (List.filter (fun g => Qeq_bool (Garage.monthly_rent g) k) garages)
      as [| a [| b l]] eqn:Hf; simpl in Hids; try discriminate.
    + injection Hids as <- <-. simpl in Hlen. lia.
    + assert (Ha : In a (List.filter
                           (fun g => Qeq_bool (Garage.monthly_rent g) k) garages))
        by (rewrite Hf; left; reflexivity).
      assert (Hb : In b (List.filter
                           (fun g => Qeq_bool (Garage.monthly_rent g) k) garages))
        by (rewrite Hf; right; left; reflexivity).
      apply filter_In in Ha as [_ Ha], Hb as [_ Hb].
      apply Qeq_bool_eq in Ha, Hb.
      destruct (filter_first_two _ _ _ _ _ Hf) as (i & j & Hij & Hi & Hj).
      assert (i = j); [| lia].
      apply (Hrent i j a b Hi Hj). rewrite Ha, Hb. reflexivity.
Qed.

(** X19. The warnings of [_validate_data_integrity]: one for every amount
    that the matcher treats as a conflict, then one if some payment day is
    after the 28th.  So there is no warning exactly when no two garages
    have the same rent and no payment day is after the 28th. *)
Theorem validation_warnings (garages : list Garage.t) :
  length (validate garages)
  = (length (_find_amount_conflicts garages)
     + if existsb (fun g => (28 <? Garage.payment_day g)%Z) garages
       then 1 else 0)%nat
  /\ (validate garages = []
      <-> (forall i j g g',
             garages !! i = Some g -> garages !! j = Some g' ->
             (Garage.monthly_rent g == Garage.monthly_rent g')%Q -> i = j)
          /\ (forall g, In g garages -> Garage.payment_day g <= 28)).
Proof.
  split; [apply validate_length |].
  rewrite <- no_conflicts_iff, <- !length_zero_iff_nil, validate_length.
  split.
  - intros H. split; [lia |].
    assert (Hd : existsb (fun g => 28 <? Garage.payment_day g) garages = false)
      by (destruct (existsb _ garages); [lia | reflexivity]).
    intros g Hin.
    destruct (Z.ltb_spec 28 (Garage.payment_day g)); [| assumption].
    assert (existsb (fun g => 28 <? Garage.payment_day g) garages = true).
    { apply existsb_exists. exists g. split; [assumption | apply Z.ltb_lt; lia]. }
    congruence.
  - intros [Hrent Hdays].
    assert (Hd : existsb (fun g => 28 <? Garage.payment_day g) garages = false).
    { destruct (existsb _ garages) eqn:E; [| reflexivity].
      apply existsb_exists in E as (g & Hin & Hg). apply Z.ltb_lt in Hg.
      specialize (Hdays g Hin). lia. }
    rewrite Hd, Hrent. reflexivity.
Qed.

End UseCase.

Section Execute.
Variables search_window_days grace_period_days : Z.
Variable messages : gmap string string.
Variable str_decimal : Q -> string.
Variable today : date.
Variable now : Z.
Variables garage_file statement_file : string.
Variable transactions : list Transaction.obj.
Variable payment_period : option PaymentPeriod.t.
Variable analysis : date.

Let run := ProcessPayments.execute search_window_days grace_period_days messages
             str_decimal today now garage_file statement_file.

Let target : date := execute_target payment_period analysis.

Hypothesis analysis_valid : valid_date analysis.
Hypothesis period_valid :
  forall period, payment_period = Some period ->
                 valid_date (PaymentPeriod.start_date period).

Lemma execute_target_month :
  match payment_period with
  | Some period => PaymentPeriod.target_month period
  | None => date_new (year analysis) (month analysis) 1
  end = Ok target
  /\ valid_date target.
Proof.
  unfold target, execute_target, PaymentPeriod.target_month.
  destruct payment_period as [period |].
  - destruct (period_valid period eq_refl) as [Hm _].
    pose proof (monthrange_days_bounds (year (PaymentPeriod.start_date period))
                                       _ Hm).
    split; [apply date_new_ok; lia | apply valid_first_of_month; exact Hm].
  - destruct analysis_valid as [Hm _].
    pose proof (monthrange_days_bounds (year analysis) _ Hm).
    split; [apply date_new_ok; lia | apply valid_first_of_month; exact Hm].
Qed.


(** X21. [execute] turns every failure into a response without report,
    with the message of the exception as its only error and no warning:
    the exception of the garage parser, else that of the statement parser,
    and, for a registry without garages, the refusal of the empty report. *)
Theorem execute_failures :
  (forall e parsed_transactions,
      run (Raise e) parsed_transactions payment_period analysis
      = ProcessPayments.mkResponse false None [ProcessPayments.str_exn e] [])
  /\ (forall garages e,
        run (Ok garages) (Raise e) payment_period analysis
        = ProcessPayments.mkResponse false None [ProcessPayments.str_exn e] [])
  /\ run (Ok []) (Ok transactions) payment_period analysis
     = ProcessPayments.mkResponse false None
         ["Report must contain at least one payment"] []
  /\ (forall parsed_garages parsed_transactions,
        let response :=
          run parsed_garages parsed_transactions payment_period analysis in
        (ProcessPayments.success response = true
         <-> ProcessPayments.report response <> None)
        /\ ProcessPayments.has_errors response
           = negb (ProcessPayments.success response)
        /\ (ProcessPayments.success response = false ->
            ProcessPayments.warnings response = [])).
Proof.
  destruct execute_target_month as [Htm _].
  split; [reflexivity |]. split; [reflexivity |]. split.
  - unfold run, ProcessPayments.execute, ProcessPayments.execute_steps.
    cbn [mbind result_bind]. rewrite Htm. reflexivity.
  - intros parsed_garages parsed_transactions. cbv zeta.
    unfold run, ProcessPayments.execute, ProcessPayments.has_errors.
    destruct (ProcessPayments.execute_steps _ _ _ _ _ _ _ _ _ _ _ _)
      as [[report notes] | e];
      cbn [ProcessPayments.success ProcessPayments.report ProcessPayments.errors
           ProcessPayments.warnings length negb Nat.ltb Nat.leb];
      repeat split; intros; try discriminate; try reflexivity; auto.
Qed.

End Execute.


Lemma execute_failures_witness :
  ProcessPayments.execute 7 3 I18n.default_messages (fun _ => "3500.00")
    (mkdate 2025 2 1) 0 "garages.xlsx" "statement.xlsx"
    (Ok []) (Ok statement_twins) None (mkdate 2025 1 20)
  = ProcessPayments.mkResponse false None
      ["Report must contain at least one payment"] [].
Proof.
  exact (proj1 (proj2 (proj2
           (execute_failures 7 3 I18n.default_messages (fun _ => "3500.00")
              (mkdate 2025 2 1) 0 "garages.xlsx" "statement.xlsx"
              statement_twins None (mkdate 2025 1 20)
              ltac:(apply valid_dateb_true; reflexivity)
              ltac:(intros period [=]))))).
Defined.

(** ** [DateUtils.get_months_between] *)

Lemma month_start_valid (i : Z) : valid_date (month_start i).
Proof.
  apply valid_first_of_month. pose proof (Z.mod_pos_bound i 12 ltac:(lia)). lia.
Qed.

Lemma month_start_index (d : date) :
  1 <= month d <= 12 -> month_start (month_index d) = mkdate (year d) (month d) 1.
Proof.
  intros Hm. unfold month_start, month_index. f_equal.
  - Z.div_mod_to_equations. lia.
  - Z.div_mod_to_equations. lia.
Qed.

Lemma month_start_mono (i j : Z) :
  i < j -> toordinal (month_start i) < toordinal (month_start j).
Proof.
  intros Hij. apply toordinal_lex_mono; try apply month_start_valid.
  unfold lex_lt, month_start. cbn [year month day].
  Z.div_mod_to_equations. lia.
Qed.

Lemma month_start_next (i : Z) :
  (if month (month_start i) =? 12
   then date_new (year (month_start i) + 1) 1 1
   else date_new (year (month_start i)) (month (month_start i) + 1) 1)
  = Ok (month_start (i + 1)).
Proof.
  unfold month_start. cbn [year month].
  pose proof (Z.mod_pos_bound i 12 ltac:(lia)) as Hb.
  destruct (Z.eqb_spec (i mod 12 + 1) 12) as [E | E].
  - replace (mkdate ((i + 1) / 12) ((i + 1) mod 12 + 1) 1)
      with (mkdate (i / 12 + 1) 1 1)
      by (f_equal; Z.div_mod_to_equations; lia).
    reflexivity.
  - replace (mkdate ((i + 1) / 12) ((i + 1) mod 12 + 1) 1)
      with (mkdate (i / 12) (i mod 12 + 1 + 1) 1)
      by (f_equal; Z.div_mod_to_equations; lia).
    apply date_new_ok; [lia |].
    pose proof (monthrange_days_bounds (i / 12) (i mod 12 + 1 + 1) ltac:(lia)).
    lia.
Qed.

Lemma months_loop_spec (k : nat) :
  forall fuel i j,
    (k <= fuel)%nat -> Z.of_nat k = j - i + 1 ->
    DateUtils.months_loop fuel (month_start i) (month_start j)
    = Some (Ok (map month_start (seqZ i (Z.of_nat k)))).
Proof.
  induction k as [| k IH]; intros fuel i j Hfuel Hk.
  - assert (Hgt : leb (month_start i) (month_start j) = false).
    { unfold leb. apply Z.leb_gt. apply month_start_mono. lia. }
    destruct fuel; cbn [DateUtils.months_loop]; rewrite Hgt; reflexivity.
  - assert (Hle : leb (month_start i) (month_start j) = true).
    { unfold leb. apply Z.leb_le.
      destruct (Z.eq_dec i j) as [-> | Hne]; [lia |].
      apply Z.lt_le_incl, month_start_mono. lia. }
    destruct fuel as [| fuel]; [lia |].
    assert (Hseq : seqZ i (Z.of_nat (S k)) = i :: seqZ (i + 1) (Z.of_nat k)).
    { rewrite seqZ_cons by lia. f_equal. f_equal; lia. }
    rewrite Hseq.
    cbn [DateUtils.months_loop]. rewrite Hle, month_start_next.
    rewrite (IH fuel (i + 1) j) by lia. reflexivity.
Qed.



(** ** [Transaction] *)

(** X23. A transaction is accepted exactly when its amount is positive and
    its category is not empty, so every transaction that exists is incoming.
    A transaction matches its own amount, and two transactions match each
    other's amounts alike; amounts 0.01 apart match, so matching is not
    transitive. *)
Theorem transaction_properties (x y : Transaction.t) :
  (Transaction.post_init x = Ok x
   <-> (0 < Transaction.amount x)%Q /\ Transaction.category x <> "")
  /\ (Transaction.post_init x = Ok x -> Transaction.is_incoming x = true)
  /\ Transaction.matches_amount x (Transaction.amount x) = true
  /\ Transaction.matches_amount x (Transaction.amount y)
     = Transaction.matches_amount y (Transaction.amount x)
  /\ Transaction.matches_amount x (Transaction.amount x + (1 # 100)) = true
  /\ Transaction.matches_amount x (Transaction.amount x + (2 # 100)) = false.
Proof.
  assert (Hpos : Qle_bool (Transaction.amount x) 0 = false
                 <-> (0 < Transaction.amount x)%Q).
  { destruct (Qle_bool (Transaction.amount x) 0) eqn:E.
    - apply Qle_bool_iff in E. split; [discriminate |].
      intros H. exfalso. exact (Qlt_not_le _ _ H E).
    - split; [| reflexivity]. intros _.
      apply Qnot_le_lt. intros H. apply Qle_bool_iff in H. congruence. }
  split; [| split; [| split; [| split; [| split]]]].
  - unfold Transaction.post_init.
    destruct (Qle_bool (Transaction.amount x) 0) eqn:E.
    + split; [discriminate |]. intros [H _]. apply Hpos in H. discriminate.
    + destruct (String.eqb_spec (Transaction.category x) "") as [Hc | Hc].
      * split; [discriminate | tauto].
      * split; [intros _; split; [apply Hpos; reflexivity | exact Hc] | reflexivity].
  - unfold Transaction.post_init, Transaction.is_incoming.
    destruct (Qle_bool (Transaction.amount x) 0); [discriminate | reflexivity].
  - unfold Transaction.matches_amount. apply Qle_bool_iff.
    assert (E : (Transaction.amount x - Transaction.amount x == 0)%Q) by ring.
    rewrite E. discriminate.
  - unfold Transaction.matches_amount.
    rewrite (Qabs_Qminus (Transaction.amount x) (Transaction.amount y)).
    reflexivity.
  - unfold Transaction.matches_amount. apply Qle_bool_iff.
    assert (E : (Transaction.amount x - (Transaction.amount x + (1 # 100))
                 == - (1 # 100))%Q) by ring.
    rewrite E. discriminate.
  - unfold Transaction.matches_amount.
    destruct (Qle_bool (Qabs (Transaction.amount x
                              - (Transaction.amount x + (2 # 100)))) (1 # 100))
      eqn:E1; [| reflexivity].
    apply Qle_bool_iff in E1.
    assert (E : (Transaction.amount x - (Transaction.amount x + (2 # 100))
                 == - (2 # 100))%Q) by ring.
    rewrite E in E1. exfalso. revert E1. vm_compute. intros H. apply H.
    reflexivity.
Qed.
